(** * Theme switcher (assets/js/theme-switcher.js)

    A shallow embedding of the three-state (light / dark / auto) theme
    toggle.  The script is one closure over four module variables; it reads
    and writes the page (body classes, the icon's classes, two attributes of
    the toggle element), [localStorage], the console and the listener lists of
    three event targets.  All of that is one explicit [World]; a JavaScript
    function becomes a computation [M A] over it that either returns or
    throws. *)

From stdpp Require Import base strings list gmap.

Open Scope string_scope.
Open Scope list_scope.

(** ** Constants *)

Module THEMES.
Definition LIGHT : string := "light".
Definition DARK : string := "dark".
Definition AUTO : string := "auto".
(** [Object.values(THEMES)], in property order. *)
Definition values : list string := [LIGHT; DARK; AUTO].
End THEMES.

Definition STORAGE_KEY : string := "preferred-theme".
Definition BODY_CLASS_LIGHT : string := "manual-light".
Definition BODY_CLASS_DARK : string := "manual-dark".

(** ** JavaScript values held by the two element variables *)

(** [let themeSwitcher; let themeIcon;] start out [undefined];
    [getElementById] and [querySelector] answer [null] or an element, and
    [x?.f()] answers [undefined] when [x] is nullish.  There is one candidate
    element per variable, so a reference needs no address. *)
Inductive handle : Type := undefined | null | element.

Definition truthy (h : handle) : bool :=
  match h with element => true | _ => false end.

Inductive ReadyState : Type := loading | interactive | complete.

(** The four functions of the closure that are passed to
    [addEventListener]. *)
Inductive Listener : Type :=
  | L_init
  | L_handleSystemThemeChange
  | L_handleThemeToggle
  | L_handleKeyDown.

#[global] Instance Listener_eq_dec : EqDecision Listener.
Proof. solve_decision. Defined.

(** ** The world *)

(** The closure's variables (source lines 22-27). *)
Record Vars : Type := mkVars {
  themeSwitcher : handle;
  themeIcon : handle;
  currentTheme : string;
  systemPrefersDark : bool
}.

(** The part of the document the script touches.  [has_switcher] says whether
    [getElementById('theme-switcher')] finds an element, [has_icon] whether
    that element has a descendant matching ['.theme-icon'].  The element
    objects' own state ([switcher_attrs], [switcher_listeners],
    [icon_classes]) is reached by the script only through its handles.
    [document.body] exists: every function that uses it runs after parsing
    has created it. *)
Record Page : Type := mkPage {
  readyState : ReadyState;
  has_switcher : bool;
  has_icon : bool;
  body_classes : list string;
  icon_classes : list string;
  switcher_attrs : gmap string string;
  doc_listeners : list (string * Listener);
  switcher_listeners : list (string * Listener);
  defaultPrevented : bool
}.

(** [window.matchMedia('(prefers-color-scheme: dark)')]. *)
Record MediaQueryList : Type := mkMQ {
  matches : bool;
  mq_listeners : list (string * Listener)
}.

(** [localStorage]: its items, and the exception (if any) that a read or a
    write raises (storage disabled, quota exceeded). *)
Record Storage : Type := mkStorage {
  items : gmap string string;
  getItem_throws : option string;
  setItem_throws : option string
}.

(** [matchMedia] is [None] when [window.matchMedia] is not there.  [console]
    keeps the warnings in order, each with its arguments. *)
Record World : Type := mkWorld {
  vars : Vars;
  page : Page;
  matchMedia : option MediaQueryList;
  localStorage : Storage;
  console : list (list string)
}.

Definition with_vars (f : Vars -> Vars) (w : World) : World :=
  mkWorld (f (vars w)) (page w) (matchMedia w) (localStorage w) (console w).
Definition with_page (f : Page -> Page) (w : World) : World :=
  mkWorld (vars w) (f (page w)) (matchMedia w) (localStorage w) (console w).
Definition with_matchMedia (f : option MediaQueryList -> option MediaQueryList)
    (w : World) : World :=
  mkWorld (vars w) (page w) (f (matchMedia w)) (localStorage w) (console w).
Definition with_localStorage (f : Storage -> Storage) (w : World) : World :=
  mkWorld (vars w) (page w) (matchMedia w) (f (localStorage w)) (console w).
Definition with_console (f : list (list string) -> list (list string))
    (w : World) : World :=
  mkWorld (vars w) (page w) (matchMedia w) (localStorage w) (f (console w)).

Definition put_themeSwitcher (h : handle) (v : Vars) : Vars :=
  mkVars h (themeIcon v) (currentTheme v) (systemPrefersDark v).
Definition put_themeIcon (h : handle) (v : Vars) : Vars :=
  mkVars (themeSwitcher v) h (currentTheme v) (systemPrefersDark v).
Definition put_currentTheme (t : string) (v : Vars) : Vars :=
  mkVars (themeSwitcher v) (themeIcon v) t (systemPrefersDark v).
Definition put_systemPrefersDark (b : bool) (v : Vars) : Vars :=
  mkVars (themeSwitcher v) (themeIcon v) (currentTheme v) b.

Definition put_readyState (r : ReadyState) (p : Page) : Page :=
  mkPage r (has_switcher p) (has_icon p) (body_classes p) (icon_classes p)
    (switcher_attrs p) (doc_listeners p) (switcher_listeners p)
    (defaultPrevented p).
Definition put_body_classes (l : list string) (p : Page) : Page :=
  mkPage (readyState p) (has_switcher p) (has_icon p) l (icon_classes p)
    (switcher_attrs p) (doc_listeners p) (switcher_listeners p)
    (defaultPrevented p).
Definition put_icon_classes (l : list string) (p : Page) : Page :=
  mkPage (readyState p) (has_switcher p) (has_icon p) (body_classes p) l
    (switcher_attrs p) (doc_listeners p) (switcher_listeners p)
    (defaultPrevented p).
Definition put_switcher_attrs (m : gmap string string) (p : Page) : Page :=
  mkPage (readyState p) (has_switcher p) (has_icon p) (body_classes p)
    (icon_classes p) m (doc_listeners p) (switcher_listeners p)
    (defaultPrevented p).
Definition put_doc_listeners (l : list (string * Listener)) (p : Page) : Page :=
  mkPage (readyState p) (has_switcher p) (has_icon p) (body_classes p)
    (icon_classes p) (switcher_attrs p) l (switcher_listeners p)
    (defaultPrevented p).
Definition put_switcher_listeners (l : list (string * Listener)) (p : Page)
    : Page :=
  mkPage (readyState p) (has_switcher p) (has_icon p) (body_classes p)
    (icon_classes p) (switcher_attrs p) (doc_listeners p) l
    (defaultPrevented p).
Definition put_defaultPrevented (b : bool) (p : Page) : Page :=
  mkPage (readyState p) (has_switcher p) (has_icon p) (body_classes p)
    (icon_classes p) (switcher_attrs p) (doc_listeners p)
    (switcher_listeners p) b.

Definition put_items (m : gmap string string) (s : Storage) : Storage :=
  mkStorage m (getItem_throws s) (setItem_throws s).

(** ** Computations that return or throw *)

Inductive Res (A : Type) : Type :=
  | Ok (a : A) (w : World)
  | Throw (e : string) (w : World).
Arguments Ok {A} a w.
Arguments Throw {A} e w.

Definition M (A : Type) : Type := World -> Res A.

Definition ret {A} (a : A) : M A := fun w => Ok a w.

Definition bind {A B} (m : M A) (k : A -> M B) : M B :=
  fun w => match m w with
           | Ok a w' => k a w'
           | Throw e w' => Throw e w'
           end.

(** [try { body } catch (e) { handler(e) }] *)
Definition try_catch {A} (body : M A) (handler : string -> M A) : M A :=
  fun w => match body w with
           | Ok a w' => Ok a w'
           | Throw e w' => handler e w'
           end.

Definition gets {A} (f : World -> A) : M A := fun w => Ok (f w) w.
Definition modify (f : World -> World) : M unit := fun w => Ok tt (f w).

Declare Scope js_scope.
Delimit Scope js_scope with js.
Notation "x <- m ;; k" := (bind m (fun x => k))
  (at level 100, m at next level, right associativity) : js_scope.
Notation "m ;; k" := (bind m (fun _ => k))
  (at level 100, right associativity) : js_scope.
Open Scope js_scope.

(** The world a computation ends in, whether it returned or threw. *)
Definition world_of {A} (r : Res A) : World :=
  match r with Ok _ w => w | Throw _ w => w end.

(** ** Host primitives *)

(** [DOMTokenList.remove(...tokens)] and [DOMTokenList.add(token)]: a class
    list is an ordered set of tokens. *)
Module ClassList.
Definition remove (tokens : list string) (l : list string) : list string :=
  filter (fun c => c ∉ tokens) l.
Definition add (token : string) (l : list string) : list string :=
  if decide (token ∈ l) then l else l ++ [token].
End ClassList.

(** [EventTarget.addEventListener]: a (type, callback) pair already present is
    not added again. *)
Definition add_listener (ty : string) (f : Listener)
    (ls : list (string * Listener)) : list (string * Listener) :=
  if decide ((ty, f) ∈ ls) then ls else ls ++ [(ty, f)].

Definition document_addEventListener (ty : string) (f : Listener) : M unit :=
  modify (with_page (fun p => put_doc_listeners (add_listener ty f (doc_listeners p)) p)).

Definition switcher_addEventListener (ty : string) (f : Listener) : M unit :=
  modify (with_page (fun p =>
    put_switcher_listeners (add_listener ty f (switcher_listeners p)) p)).

Definition mq_addEventListener (ty : string) (f : Listener) : M unit :=
  modify (with_matchMedia (fun o =>
    match o with
    | Some mq => Some (mkMQ (matches mq) (add_listener ty f (mq_listeners mq)))
    | None => None
    end)).

(** [document.getElementById('theme-switcher')] *)
Definition getElementById_theme_switcher : M handle :=
  gets (fun w => if has_switcher (page w) then element else null).

(** [themeSwitcher?.querySelector('.theme-icon')] *)
Definition querySelector_theme_icon (sw : handle) : M handle :=
  match sw with
  | element => gets (fun w => if has_icon (page w) then element else null)
  | _ => ret undefined
  end.

Definition console_warn (args : list string) : M unit :=
  modify (with_console (fun c => c ++ [args])).

Definition localStorage_getItem (key : string) : M (option string) :=
  fun w => match getItem_throws (localStorage w) with
           | Some e => Throw e w
           | None => Ok (items (localStorage w) !! key) w
           end.

Definition localStorage_setItem (key value : string) : M unit :=
  fun w => match setItem_throws (localStorage w) with
           | Some e => Throw e w
           | None => Ok tt (with_localStorage
                              (fun s => put_items (<[key := value]> (items s)) s) w)
           end.

Definition body_classList_remove (tokens : list string) : M unit :=
  modify (with_page (fun p =>
    put_body_classes (ClassList.remove tokens (body_classes p)) p)).
Definition body_classList_add (token : string) : M unit :=
  modify (with_page (fun p =>
    put_body_classes (ClassList.add token (body_classes p)) p)).
Definition themeIcon_classList_remove (tokens : list string) : M unit :=
  modify (with_page (fun p =>
    put_icon_classes (ClassList.remove tokens (icon_classes p)) p)).
Definition themeIcon_classList_add (token : string) : M unit :=
  modify (with_page (fun p =>
    put_icon_classes (ClassList.add token (icon_classes p)) p)).
Definition themeSwitcher_setAttribute (name value : string) : M unit :=
  modify (with_page (fun p =>
    put_switcher_attrs (<[name := value]> (switcher_attrs p)) p)).

Definition e_preventDefault : M unit :=
  modify (with_page (put_defaultPrevented true)).

Definition set_currentTheme (t : string) : M unit :=
  modify (with_vars (put_currentTheme t)).
Definition set_systemPrefersDark (b : bool) : M unit :=
  modify (with_vars (put_systemPrefersDark b)).

(** ** The script *)

(** What [setAttribute] stores for a value that may still be [undefined]. *)
Definition js_String (v : option string) : string :=
  match v with Some s => s | None => "undefined" end.

(** [updateThemeIcon(effectiveTheme)], source lines 151-165. *)
Definition updateThemeIcon (effectiveTheme : string) : M unit :=
  icon <- gets (fun w => themeIcon (vars w)) ;;
  if negb (truthy icon) then ret tt
  else
    themeIcon_classList_remove ["fa-moon"; "fa-sun"; "fa-adjust"] ;;
    cur <- gets (fun w => currentTheme (vars w)) ;;
    if cur =? THEMES.AUTO then themeIcon_classList_add "fa-adjust"
    else if effectiveTheme =? THEMES.DARK then themeIcon_classList_add "fa-sun"
    else themeIcon_classList_add "fa-moon".

(** The [switch] of [updateThemeTooltip]; no case matches a value outside
    the three constants and [tooltip] stays [undefined]. *)
Definition tooltip_for (cur : string) : option string :=
  if cur =? THEMES.AUTO then Some "Switch to light mode"
  else if cur =? THEMES.LIGHT then Some "Switch to dark mode"
  else if cur =? THEMES.DARK then Some "Switch to auto mode"
  else None.

(** [updateThemeTooltip()], source lines 170-188. *)
Definition updateThemeTooltip : M unit :=
  sw <- gets (fun w => themeSwitcher (vars w)) ;;
  if negb (truthy sw) then ret tt
  else
    cur <- gets (fun w => currentTheme (vars w)) ;;
    let tooltip := tooltip_for cur in
    themeSwitcher_setAttribute "title" (js_String tooltip) ;;
    themeSwitcher_setAttribute "aria-label" (js_String tooltip).

(** The local [effectiveTheme] of [applyTheme] (source lines 129-134). *)
Definition effectiveTheme (w : World) : string :=
  if currentTheme (vars w) =? THEMES.AUTO then
    (if systemPrefersDark (vars w) then THEMES.DARK else THEMES.LIGHT)
  else currentTheme (vars w).

(** [applyTheme()], source lines 122-146. *)
Definition applyTheme : M unit :=
  body_classList_remove [BODY_CLASS_LIGHT; BODY_CLASS_DARK] ;;
  effectiveTheme <- gets effectiveTheme ;;
  (if effectiveTheme =? THEMES.DARK then body_classList_add BODY_CLASS_DARK
   else body_classList_add BODY_CLASS_LIGHT) ;;
  updateThemeIcon effectiveTheme ;;
  updateThemeTooltip.

(** [loadThemePreference()], source lines 193-202.  [getItem] answers [null]
    for a missing key; [null] and the empty string are falsy. *)
Definition loadThemePreference : M unit :=
  try_catch
    (saved <- localStorage_getItem STORAGE_KEY ;;
     match saved with
     | Some s =>
         if negb (s =? "") && bool_decide (s ∈ THEMES.values)
         then set_currentTheme s
         else ret tt
     | None => ret tt
     end)
    (fun e => console_warn ["Could not load theme preference:"; e]).

(** [saveThemePreference()], source lines 207-213. *)
Definition saveThemePreference : M unit :=
  try_catch
    (cur <- gets (fun w => currentTheme (vars w)) ;;
     localStorage_setItem STORAGE_KEY cur)
    (fun e => console_warn ["Could not save theme preference:"; e]).

(** [toggleTheme()], source lines 100-117.  The [switch] has no default. *)
Definition toggleTheme : M unit :=
  cur <- gets (fun w => currentTheme (vars w)) ;;
  (if cur =? THEMES.AUTO then
     spd <- gets (fun w => systemPrefersDark (vars w)) ;;
     set_currentTheme (if spd then THEMES.LIGHT else THEMES.DARK)
   else if cur =? THEMES.LIGHT then set_currentTheme THEMES.DARK
   else if cur =? THEMES.DARK then set_currentTheme THEMES.AUTO
   else ret tt) ;;
  saveThemePreference ;;
  applyTheme.

(** [handleSystemThemeChange(e)], source lines 71-77; [e_matches] is
    [e.matches]. *)
Definition handleSystemThemeChange (e_matches : bool) : M unit :=
  set_systemPrefersDark e_matches ;;
  cur <- gets (fun w => currentTheme (vars w)) ;;
  if cur =? THEMES.AUTO then applyTheme else ret tt.

(** [handleThemeToggle(e)], source lines 82-85. *)
Definition handleThemeToggle : M unit :=
  e_preventDefault ;;
  toggleTheme.

(** [handleKeyDown(e)], source lines 90-95; [e_key] is [e.key]. *)
Definition handleKeyDown (e_key : string) : M unit :=
  if (e_key =? "Enter") || (e_key =? " ") then
    e_preventDefault ;;
    toggleTheme
  else ret tt.

(** [init()], source lines 32-66. *)
Definition init : M unit :=
  rs <- gets (fun w => readyState (page w)) ;;
  match rs with
  | loading => document_addEventListener "DOMContentLoaded" L_init
  | _ =>
    sw <- getElementById_theme_switcher ;;
    modify (with_vars (put_themeSwitcher sw)) ;;
    icon <- querySelector_theme_icon sw ;;
    modify (with_vars (put_themeIcon icon)) ;;
    if negb (truthy sw) || negb (truthy icon) then
      console_warn ["Theme switcher elements not found"]
    else
      mm <- gets matchMedia ;;
      match mm with
      | Some darkMediaQuery =>
          set_systemPrefersDark (matches darkMediaQuery) ;;
          mq_addEventListener "change" L_handleSystemThemeChange
      | None => ret tt
      end ;;
      loadThemePreference ;;
      applyTheme ;;
      switcher_addEventListener "click" L_handleThemeToggle ;;
      switcher_addEventListener "keydown" L_handleKeyDown
  end.

(** The object [getCurrentTheme()] builds. *)
Record ThemeInfo : Type := mkThemeInfo {
  current : string;
  effective : string
}.

(** [getCurrentTheme()], source lines 218-225. *)
Definition getCurrentTheme : M ThemeInfo :=
  cur <- gets (fun w => currentTheme (vars w)) ;;
  spd <- gets (fun w => systemPrefersDark (vars w)) ;;
  ret {| current := cur;
         effective := if cur =? THEMES.AUTO then
                        (if spd then THEMES.DARK else THEMES.LIGHT)
                      else cur |}.

(** The closure's variables as their declarations leave them. *)
Definition initial_vars : Vars :=
  mkVars undefined undefined THEMES.AUTO false.

(** Evaluating the script in a page: the declarations, then [init()]
    (source line 228).  The export that follows only makes [toggleTheme] and
    [getCurrentTheme] callable from outside. *)
Definition script : M unit :=
  modify (with_vars (fun _ => initial_vars)) ;;
  init.

(** ** Events *)

Inductive Event : Type :=
  | Ev_DOMContentLoaded
  | Ev_change (e_matches : bool)
  | Ev_click
  | Ev_keydown (e_key : string).

Definition event_type (ev : Event) : string :=
  match ev with
  | Ev_DOMContentLoaded => "DOMContentLoaded"
  | Ev_change _ => "change"
  | Ev_click => "click"
  | Ev_keydown _ => "keydown"
  end.

(** Calling a registered function with an event.  Each function is registered
    on one target for one type; the remaining pairs never arise. *)
Definition call_listener (f : Listener) (ev : Event) : M unit :=
  match f, ev with
  | L_init, _ => init
  | L_handleSystemThemeChange, Ev_change b => handleSystemThemeChange b
  | L_handleThemeToggle, _ => handleThemeToggle
  | L_handleKeyDown, Ev_keydown k => handleKeyDown k
  | _, _ => ret tt
  end.

(** Dispatch: the listeners of the event's type run in order; an exception
    that escapes one is reported by the host and the next one still runs. *)
Fixpoint dispatch (ls : list (string * Listener)) (ev : Event) : M unit :=
  match ls with
  | [] => ret tt
  | (ty, f) :: rest =>
      (if ty =? event_type ev then try_catch (call_listener f ev) (fun _ => ret tt)
       else ret tt) ;;
      dispatch rest ev
  end.

(** What the page's environment can do to the running script: fire the
    events it listens to, call the two exported functions, and change
    [localStorage] behind its back (another tab, a quota that fills up). *)
Inductive Action : Type :=
  | A_DOMContentLoaded
  | A_systemPreference (dark : bool)
  | A_click
  | A_keydown (key : string)
  | A_toggleTheme
  | A_getCurrentTheme
  | A_storage (s : Storage).

Definition perform (a : Action) : M unit :=
  match a with
  | A_DOMContentLoaded =>
      rs <- gets (fun w => readyState (page w)) ;;
      match rs with
      | loading =>
          modify (with_page (put_readyState interactive)) ;;
          ls <- gets (fun w => doc_listeners (page w)) ;;
          dispatch ls Ev_DOMContentLoaded
      | _ => ret tt
      end
  | A_systemPreference dark =>
      mm <- gets matchMedia ;;
      match mm with
      | Some mq =>
          modify (with_matchMedia (fun _ => Some (mkMQ dark (mq_listeners mq)))) ;;
          dispatch (mq_listeners mq) (Ev_change dark)
      | None => ret tt
      end
  | A_click =>
      modify (with_page (put_defaultPrevented false)) ;;
      ls <- gets (fun w => switcher_listeners (page w)) ;;
      dispatch ls Ev_click
  | A_keydown key =>
      modify (with_page (put_defaultPrevented false)) ;;
      ls <- gets (fun w => switcher_listeners (page w)) ;;
      dispatch ls (Ev_keydown key)
  | A_toggleTheme => toggleTheme
  | A_getCurrentTheme => _ <- getCurrentTheme ;; ret tt
  | A_storage s => modify (with_localStorage (fun _ => s))
  end.

(** The states the script can be in: after it was evaluated in some page,
    and after any action from there. *)
Inductive reachable : World -> Prop :=
  | reach_script env : reachable (world_of (script env))
  | reach_perform w a : reachable w -> reachable (world_of (perform a w)).

(** ** The three valid modes *)

Definition valid_theme (t : string) : Prop :=
  t = THEMES.LIGHT \/ t = THEMES.DARK \/ t = THEMES.AUTO.


(** ** What each function does to the world

    Every function of the script is straight-line code over the world, so
    its run from any world can be written down in closed form.  The functions
    below are those closed forms; the [_run] lemmas prove that the embedded
    code computes exactly them, and in particular that it returns. *)

Definition icon_written (eff : string) (w : World) : World :=
  if truthy (themeIcon (vars w)) then
    with_page (fun p =>
      put_icon_classes
        (ClassList.add
           (if currentTheme (vars w) =? THEMES.AUTO then "fa-adjust"
            else if eff =? THEMES.DARK then "fa-sun" else "fa-moon")
           (ClassList.remove ["fa-moon"; "fa-sun"; "fa-adjust"] (icon_classes p)))
        p) w
  else w.

Definition tooltip_written (w : World) : World :=
  if truthy (themeSwitcher (vars w)) then
    let t := js_String (tooltip_for (currentTheme (vars w))) in
    with_page (fun p =>
      put_switcher_attrs (<["aria-label" := t]> (<["title" := t]> (switcher_attrs p))) p) w
  else w.

Definition body_written (w : World) : World :=
  with_page (fun p =>
    put_body_classes
      (ClassList.add
         (if effectiveTheme w =? THEMES.DARK then BODY_CLASS_DARK
          else BODY_CLASS_LIGHT)
         (ClassList.remove [BODY_CLASS_LIGHT; BODY_CLASS_DARK] (body_classes p)))
      p) w.

Definition applied (w : World) : World :=
  tooltip_written (icon_written (effectiveTheme w) (body_written w)).

Definition saved (w : World) : World :=
  match setItem_throws (localStorage w) with
  | Some e => with_console (fun c => c ++ [["Could not save theme preference:"; e]]) w
  | None =>
      with_localStorage (fun s =>
        put_items (<[STORAGE_KEY := currentTheme (vars w)]> (items s)) s) w
  end.

Definition advanced (w : World) : World :=
  let cur := currentTheme (vars w) in
  if cur =? THEMES.AUTO then
    with_vars (put_currentTheme
      (if systemPrefersDark (vars w) then THEMES.LIGHT else THEMES.DARK)) w
  else if cur =? THEMES.LIGHT then with_vars (put_currentTheme THEMES.DARK) w
  else if cur =? THEMES.DARK then with_vars (put_currentTheme THEMES.AUTO) w
  else w.

Definition loaded (w : World) : World :=
  match getItem_throws (localStorage w) with
  | Some e => with_console (fun c => c ++ [["Could not load theme preference:"; e]]) w
  | None =>
      match items (localStorage w) !! STORAGE_KEY with
      | Some s =>
          if negb (s =? "") && bool_decide (s ∈ THEMES.values)
          then with_vars (put_currentTheme s) w
          else w
      | None => w
      end
  end.

Definition system_changed (e_matches : bool) (w : World) : World :=
  let w1 := with_vars (put_systemPrefersDark e_matches) w in
  if currentTheme (vars w) =? THEMES.AUTO then applied w1 else w1.

Definition handles_looked_up (w : World) : World :=
  let sw := if has_switcher (page w) then element else null in
  let icon := match sw with
              | element => if has_icon (page w) then element else null
              | _ => undefined
              end in
  with_vars (put_themeIcon icon) (with_vars (put_themeSwitcher sw) w).

Definition subscribed (w : World) : World :=
  match matchMedia w with
  | Some mq =>
      with_matchMedia (fun _ =>
        Some (mkMQ (matches mq)
                (add_listener "change" L_handleSystemThemeChange (mq_listeners mq))))
        (with_vars (put_systemPrefersDark (matches mq)) w)
  | None => w
  end.

Definition listening (w : World) : World :=
  with_page (fun p =>
    put_switcher_listeners
      (add_listener "keydown" L_handleKeyDown
         (add_listener "click" L_handleThemeToggle (switcher_listeners p))) p) w.

Definition initialised (w : World) : World :=
  match readyState (page w) with
  | loading =>
      with_page (fun p =>
        put_doc_listeners (add_listener "DOMContentLoaded" L_init (doc_listeners p)) p) w
  | _ =>
      let w1 := handles_looked_up w in
      if negb (truthy (themeSwitcher (vars w1))) || negb (truthy (themeIcon (vars w1)))
      then with_console (fun c => c ++ [["Theme switcher elements not found"]]) w1
      else listening (applied (loaded (subscribed w1)))
  end.

(** ** The behaviour the specification describes

    The specification speaks of a three-valued mode and gives the transition
    function, the resolution of AUTO and the icon/tooltip table in words.
    This module writes those words down; the theorems below compare the
    script with them. *)
Module Spec.
Inductive Mode : Type := LIGHT | DARK | AUTO.

(** "one of the literal values "light" | "dark" | "auto"" *)
Definition literal (m : Mode) : string :=
  match m with LIGHT => "light" | DARK => "dark" | AUTO => "auto" end.

(** "from AUTO, next state is LIGHT if system is dark-preferring, else
    DARK; from LIGHT, next is DARK; from DARK, next is AUTO" *)
Definition next (m : Mode) (system_dark : bool) : Mode :=
  match m with
  | AUTO => if system_dark then LIGHT else DARK
  | LIGHT => DARK
  | DARK => AUTO
  end.

(** "AUTO resolves via systemPrefersDark; otherwise equals currentTheme" *)
Definition resolve (m : Mode) (system_dark : bool) : Mode :=
  match m with
  | AUTO => if system_dark then DARK else LIGHT
  | _ => m
  end.

(** "AUTO -> adjust-icon; manual DARK -> sun-icon; manual LIGHT ->
    moon-icon" *)
Definition icon (m : Mode) : string :=
  match m with AUTO => "fa-adjust" | DARK => "fa-sun" | LIGHT => "fa-moon" end.

Definition tooltip (m : Mode) : string :=
  match m with
  | AUTO => "Switch to light mode"
  | LIGHT => "Switch to dark mode"
  | DARK => "Switch to auto mode"
  end.

(** The body class that signals an effective theme. *)
Definition body_class (eff : Mode) : string :=
  match eff with DARK => "manual-dark" | _ => "manual-light" end.
End Spec.

Definition theme_classes : list string := [BODY_CLASS_LIGHT; BODY_CLASS_DARK].
Definition icon_glyphs : list string := ["fa-moon"; "fa-sun"; "fa-adjust"].

(** The page shows mode [m]: of the two theme classes the body carries
    exactly the one of the resolved theme, and each element the script holds
    carries the glyph and the tooltip of the table. *)
Definition shows (m : Spec.Mode) (w : World) : Prop :=
  (forall c, c ∈ theme_classes ->
     (c ∈ body_classes (page w) <->
      c = Spec.body_class (Spec.resolve m (systemPrefersDark (vars w))))) /\
  (truthy (themeIcon (vars w)) = true ->
     forall g, g ∈ icon_glyphs ->
       (g ∈ icon_classes (page w) <-> g = Spec.icon m)) /\
  (truthy (themeSwitcher (vars w)) = true ->
     switcher_attrs (page w) !! "title" = Some (Spec.tooltip m) /\
     switcher_attrs (page w) !! "aria-label" = Some (Spec.tooltip m)).

(** ** Runs and sample pages *)

(** [n] calls of the exported [toggleTheme], one after the other. *)
Fixpoint toggles (n : nat) : M unit :=
  match n with
  | O => ret tt
  | S n' => toggleTheme ;; toggles n'
  end.

(** The manual mode after [n] toggles from [w]. *)
Definition mode_after (n : nat) (w : World) : string :=
  currentTheme (vars (world_of (toggles n w))).

(** A loaded page that has the toggle and its icon, and one that has
    neither. *)
Definition page_with_toggle : Page :=
  mkPage complete true true ["home"] ["fas"; "theme-icon"; "fa-adjust"] ∅ [] []
    false.

Definition page_without_toggle : Page :=
  mkPage complete false false ["home"] [] ∅ [] [] false.

Definition working_storage : Storage := mkStorage ∅ None None.

Definition blocked_storage : Storage :=
  mkStorage ∅ (Some "SecurityError") (Some "QuotaExceededError").

(** The script after a successful [init], in mode [cur] on a system whose
    preference is [dark]. *)
Definition running (cur : string) (dark : bool) : World :=
  mkWorld (mkVars element element cur dark) page_with_toggle
    (Some (mkMQ dark [("change", L_handleSystemThemeChange)]))
    working_storage [].

(** The script's variables as declared, in a page without the toggle. *)
Definition unstarted (s : Storage) : World :=
  mkWorld initial_vars page_without_toggle (Some (mkMQ true [])) s [].

(** A page being loaded with the toggle in it, a stored preference [stored]
    and a system preference [dark]: where the script is evaluated. *)
Definition fresh_page (stored : option string) (dark : bool) : World :=
  mkWorld initial_vars page_with_toggle (Some (mkMQ dark []))
    (mkStorage (match stored with
                | Some s => {[ STORAGE_KEY := s ]}
                | None => ∅
                end) None None)
    [].

(** The mode [n] transitions of the specification's function after [m],
    the system preference being fixed. *)
Fixpoint spec_after (n : nat) (m : Spec.Mode) (system_dark : bool) : Spec.Mode :=
  match n with
  | O => m
  | S n' => spec_after n' (Spec.next m system_dark) system_dark
  end.

(** The page is in step with the script's state: whenever the script holds
    both elements, the page shows the current mode. *)
Definition in_step (w : World) : Prop :=
  forall m,
    currentTheme (vars w) = Spec.literal m ->
    truthy (themeSwitcher (vars w)) = true ->
    truthy (themeIcon (vars w)) = true ->
    shows m w.

(** Once the script holds both elements it listens to the media query, and
    its [systemPrefersDark] is what the media query reports. *)
Definition subscribed_to_system (w : World) : Prop :=
  truthy (themeSwitcher (vars w)) = true ->
  truthy (themeIcon (vars w)) = true ->
  forall mq, matchMedia w = Some mq ->
    ("change", L_handleSystemThemeChange) ∈ mq_listeners mq.

Definition mirrors_system (w : World) : Prop :=
  truthy (themeSwitcher (vars w)) = true ->
  truthy (themeIcon (vars w)) = true ->
  forall mq, matchMedia w = Some mq -> systemPrefersDark (vars w) = matches mq.

(** What the media query reports, if there is one. *)
Definition reported (w : World) : option bool := matches <$> matchMedia w.

(** While a change event is being delivered, the media query already
    reports the value the event carries. *)
Definition delivering (ev : Event) (w : World) : Prop :=
  match ev with
  | Ev_change b => forall mq, matchMedia w = Some mq -> matches mq = b
  | _ => True
  end.

(** * Properties *)

(** ** Class lists *)

Lemma elem_of_ClassList_remove (x : string) (tokens l : list string) :
  x ∈ ClassList.remove tokens l <-> x ∈ l /\ x ∉ tokens.
Proof. unfold ClassList.remove. rewrite list_elem_of_filter. tauto. Qed.

Lemma elem_of_ClassList_add (x token : string) (l : list string) :
  x ∈ ClassList.add token l <-> x = token \/ x ∈ l.
Proof.
  unfold ClassList.add. destruct (decide (token ∈ l)) as [Hin | Hout].
  - split; [tauto | intros [-> | H]; assumption].
  - rewrite elem_of_app, list_elem_of_singleton. tauto.
Qed.


Lemma bind_Ok {A B} (m : M A) (k : A -> M B) (w w' : World) (a : A) :
  m w = Ok a w' -> bind m k w = k a w'.
Proof. intros H. unfold bind. rewrite H. reflexivity. Qed.

(** One statement of a function body at a time. *)
Ltac step := erewrite bind_Ok by reflexivity.
Ltac step_with L := erewrite bind_Ok by apply L.

Lemma updateThemeIcon_run (eff : string) (w : World) :
  updateThemeIcon eff w = Ok tt (icon_written eff w).
Proof.
  unfold updateThemeIcon, icon_written. step.
  destruct (truthy (themeIcon (vars w))); cbn [negb]; [ | reflexivity].
  step. step.
  destruct (currentTheme (vars w) =? THEMES.AUTO) eqn:Hauto; cbn;
    rewrite Hauto; [reflexivity | ].
  destruct (eff =? THEMES.DARK); reflexivity.
Qed.

Lemma updateThemeTooltip_run (w : World) :
  updateThemeTooltip w = Ok tt (tooltip_written w).
Proof.
  unfold updateThemeTooltip, tooltip_written. step.
  destruct (truthy (themeSwitcher (vars w))); cbn [negb]; [ | reflexivity].
  step. step. reflexivity.
Qed.

Lemma applyTheme_run (w : World) : applyTheme w = Ok tt (applied w).
Proof.
  unfold applyTheme. step. step.
  unfold applied, body_written.
  change (effectiveTheme (with_page _ w)) with (effectiveTheme w).
  destruct (effectiveTheme w =? THEMES.DARK); step;
    step_with updateThemeIcon_run; apply updateThemeTooltip_run.
Qed.

Lemma saveThemePreference_run (w : World) :
  saveThemePreference w = Ok tt (saved w).
Proof.
  unfold saveThemePreference, saved, try_catch. step.
  unfold localStorage_setItem.
  destruct (setItem_throws (localStorage w)); reflexivity.
Qed.

Lemma toggleTheme_run (w : World) :
  toggleTheme w = Ok tt (applied (saved (advanced w))).
Proof.
  unfold toggleTheme. step. unfold advanced. cbn zeta.
  destruct (currentTheme (vars w) =? THEMES.AUTO);
    [ | destruct (currentTheme (vars w) =? THEMES.LIGHT);
        [ | destruct (currentTheme (vars w) =? THEMES.DARK)]]; step.
  all: step_with saveThemePreference_run; apply applyTheme_run.
Qed.

Lemma loadThemePreference_run (w : World) :
  loadThemePreference w = Ok tt (loaded w).
Proof.
  unfold loadThemePreference, loaded, try_catch, bind, localStorage_getItem.
  destruct (getItem_throws (localStorage w)); [reflexivity | ].
  destruct (items (localStorage w) !! STORAGE_KEY) as [s | ]; [ | reflexivity].
  destruct (negb (s =? "") && bool_decide (s ∈ THEMES.values)); reflexivity.
Qed.

Lemma handleSystemThemeChange_run (e_matches : bool) (w : World) :
  handleSystemThemeChange e_matches w = Ok tt (system_changed e_matches w).
Proof.
  unfold handleSystemThemeChange, system_changed. step. step. cbn.
  destruct (currentTheme (vars w) =? THEMES.AUTO);
    [apply applyTheme_run | reflexivity].
Qed.

Lemma handleThemeToggle_run (w : World) :
  handleThemeToggle w =
  Ok tt (applied (saved (advanced (with_page (put_defaultPrevented true) w)))).
Proof. unfold handleThemeToggle. step. apply toggleTheme_run. Qed.

Lemma handleKeyDown_run (e_key : string) (w : World) :
  handleKeyDown e_key w =
  Ok tt (if (e_key =? "Enter") || (e_key =? " ")
         then applied (saved (advanced (with_page (put_defaultPrevented true) w)))
         else w).
Proof.
  unfold handleKeyDown.
  destruct ((e_key =? "Enter") || (e_key =? " ")); [ | reflexivity].
  step. apply toggleTheme_run.
Qed.

Lemma init_run (w : World) : init w = Ok tt (initialised w).
Proof.
  unfold init, initialised, handles_looked_up. step.
  destruct (readyState (page w)); [reflexivity | | ].
  all: destruct (has_switcher (page w)) eqn:Hsw;
       [destruct (has_icon (page w)) eqn:Hic | ];
       unfold getElementById_theme_switcher; step; rewrite Hsw; step;
       unfold querySelector_theme_icon; step; step; cbn; rewrite ?Hic; cbn;
       try reflexivity.
  all: unfold subscribed; cbn; destruct (matchMedia w) as [mq | ] eqn:Hmq;
       step; step_with loadThemePreference_run; step_with applyTheme_run;
       step; try reflexivity.
  all: unfold mq_addEventListener, switcher_addEventListener, modify, listening,
         with_matchMedia; cbn; rewrite Hmq; reflexivity.
Qed.

(** ** What the functions leave alone *)

Ltac open_applied w :=
  unfold applied, tooltip_written, icon_written, body_written; cbn;
  destruct (truthy (themeIcon (vars w))); cbn;
  destruct (truthy (themeSwitcher (vars w))); cbn.

Lemma vars_applied (w : World) : vars (applied w) = vars w.
Proof. open_applied w; reflexivity. Qed.

Lemma localStorage_applied (w : World) : localStorage (applied w) = localStorage w.
Proof. open_applied w; reflexivity. Qed.

Lemma console_applied (w : World) : console (applied w) = console w.
Proof. open_applied w; reflexivity. Qed.

Lemma matchMedia_applied (w : World) : matchMedia (applied w) = matchMedia w.
Proof. open_applied w; reflexivity. Qed.

Lemma body_classes_applied (w : World) :
  body_classes (page (applied w)) =
  ClassList.add
    (if effectiveTheme w =? THEMES.DARK then BODY_CLASS_DARK else BODY_CLASS_LIGHT)
    (ClassList.remove [BODY_CLASS_LIGHT; BODY_CLASS_DARK] (body_classes (page w))).
Proof. open_applied w; reflexivity. Qed.

Lemma icon_classes_applied (w : World) :
  icon_classes (page (applied w)) =
  if truthy (themeIcon (vars w)) then
    ClassList.add
      (if currentTheme (vars w) =? THEMES.AUTO then "fa-adjust"
       else if effectiveTheme w =? THEMES.DARK then "fa-sun" else "fa-moon")
      (ClassList.remove ["fa-moon"; "fa-sun"; "fa-adjust"] (icon_classes (page w)))
  else icon_classes (page w).
Proof. open_applied w; reflexivity. Qed.

Lemma switcher_attrs_applied (w : World) :
  switcher_attrs (page (applied w)) =
  if truthy (themeSwitcher (vars w)) then
    <["aria-label" := js_String (tooltip_for (currentTheme (vars w)))]>
      (<["title" := js_String (tooltip_for (currentTheme (vars w)))]>
         (switcher_attrs (page w)))
  else switcher_attrs (page w).
Proof. open_applied w; reflexivity. Qed.

Lemma vars_saved (w : World) : vars (saved w) = vars w.
Proof. unfold saved. destruct (setItem_throws (localStorage w)); reflexivity. Qed.

Lemma page_saved (w : World) : page (saved w) = page w.
Proof. unfold saved. destruct (setItem_throws (localStorage w)); reflexivity. Qed.

Lemma matchMedia_saved (w : World) : matchMedia (saved w) = matchMedia w.
Proof. unfold saved. destruct (setItem_throws (localStorage w)); reflexivity. Qed.

Lemma effectiveTheme_vars (w1 w2 : World) :
  vars w1 = vars w2 -> effectiveTheme w1 = effectiveTheme w2.
Proof. unfold effectiveTheme. intros ->. reflexivity. Qed.

(** [advanced] touches nothing but [currentTheme]. *)
Lemma advanced_frame (w : World) :
  page (advanced w) = page w /\
  localStorage (advanced w) = localStorage w /\
  console (advanced w) = console w /\
  matchMedia (advanced w) = matchMedia w /\
  systemPrefersDark (vars (advanced w)) = systemPrefersDark (vars w) /\
  themeSwitcher (vars (advanced w)) = themeSwitcher (vars w) /\
  themeIcon (vars (advanced w)) = themeIcon (vars w).
Proof.
  unfold advanced. cbn zeta.
  destruct (currentTheme (vars w) =? THEMES.AUTO); [repeat split | ].
  destruct (currentTheme (vars w) =? THEMES.LIGHT); [repeat split | ].
  destruct (currentTheme (vars w) =? THEMES.DARK); repeat split.
Qed.

Lemma valid_theme_literal (t : string) :
  valid_theme t <-> exists m, t = Spec.literal m.
Proof.
  unfold valid_theme. split.
  - intros [-> | [-> | ->]];
      [exists Spec.LIGHT | exists Spec.DARK | exists Spec.AUTO]; reflexivity.
  - intros [[ | | ] ->]; cbn; auto.
Qed.

Lemma effectiveTheme_literal (m : Spec.Mode) (w : World) :
  currentTheme (vars w) = Spec.literal m ->
  effectiveTheme w = Spec.literal (Spec.resolve m (systemPrefersDark (vars w))).
Proof.
  unfold effectiveTheme. intros ->.
  destruct m, (systemPrefersDark (vars w)); reflexivity.
Qed.

Lemma currentTheme_advanced (m : Spec.Mode) (w : World) :
  currentTheme (vars w) = Spec.literal m ->
  currentTheme (vars (advanced w)) =
  Spec.literal (Spec.next m (systemPrefersDark (vars w))).
Proof.
  unfold advanced. cbn zeta. intros ->.
  destruct m, (systemPrefersDark (vars w)); reflexivity.
Qed.

Lemma applied_shows (m : Spec.Mode) (w : World) :
  currentTheme (vars w) = Spec.literal m -> shows m (applied w).
Proof.
  intros Hm. unfold shows.
  rewrite body_classes_applied, icon_classes_applied, switcher_attrs_applied.
  rewrite !vars_applied, (effectiveTheme_literal m w Hm), Hm.
  split; [ | split].
  - intros c Hc. rewrite elem_of_ClassList_add, elem_of_ClassList_remove.
    assert ((if Spec.literal (Spec.resolve m (systemPrefersDark (vars w))) =? THEMES.DARK
             then BODY_CLASS_DARK else BODY_CLASS_LIGHT) =
            Spec.body_class (Spec.resolve m (systemPrefersDark (vars w)))) as ->
      by (destruct m, (systemPrefersDark (vars w)); reflexivity).
    unfold theme_classes in Hc. tauto.
  - intros -> g Hg. rewrite elem_of_ClassList_add, elem_of_ClassList_remove.
    assert ((if Spec.literal m =? THEMES.AUTO then "fa-adjust"
             else if Spec.literal (Spec.resolve m (systemPrefersDark (vars w))) =? THEMES.DARK
                  then "fa-sun" else "fa-moon") = Spec.icon m) as ->
      by (destruct m, (systemPrefersDark (vars w)); reflexivity).
    unfold icon_glyphs in Hg. tauto.
  - intros ->.
    assert (js_String (tooltip_for (Spec.literal m)) = Spec.tooltip m) as ->
      by (destruct m; reflexivity).
    split; [rewrite lookup_insert_ne by discriminate | ]; apply lookup_insert_eq.
Qed.

(** ** The mode stays one of the three constants *)

Lemma valid_theme_values (s : string) : s ∈ THEMES.values -> valid_theme s.
Proof.
  unfold THEMES.values, valid_theme.
  rewrite !elem_of_cons, elem_of_nil. tauto.
Qed.

Lemma valid_advanced (w : World) :
  valid_theme (currentTheme (vars w)) ->
  valid_theme (currentTheme (vars (advanced w))).
Proof.
  rewrite !valid_theme_literal. intros [m Hm].
  eexists. apply currentTheme_advanced, Hm.
Qed.

Lemma valid_loaded (w : World) :
  valid_theme (currentTheme (vars w)) ->
  valid_theme (currentTheme (vars (loaded w))).
Proof.
  intros Hv. unfold loaded.
  destruct (getItem_throws (localStorage w)); [exact Hv | ].
  destruct (items (localStorage w) !! STORAGE_KEY) as [s | ]; [ | exact Hv].
  destruct (negb (s =? "") && bool_decide (s ∈ THEMES.values)) eqn:Hs;
    [ | exact Hv].
  apply andb_true_iff in Hs as [_ Hs]. apply bool_decide_eq_true in Hs.
  cbn. apply valid_theme_values, Hs.
Qed.

Lemma currentTheme_system_changed (b : bool) (w : World) :
  currentTheme (vars (system_changed b w)) = currentTheme (vars w).
Proof.
  unfold system_changed. cbn zeta.
  destruct (currentTheme (vars w) =? THEMES.AUTO);
    [rewrite vars_applied | ]; reflexivity.
Qed.

Lemma currentTheme_toggled (w : World) :
  currentTheme (vars (applied (saved (advanced w)))) =
  currentTheme (vars (advanced w)).
Proof. rewrite vars_applied, vars_saved. reflexivity. Qed.

Lemma currentTheme_subscribed (w : World) :
  currentTheme (vars (subscribed w)) = currentTheme (vars w).
Proof. unfold subscribed. destruct (matchMedia w); reflexivity. Qed.

Lemma valid_initialised (w : World) :
  valid_theme (currentTheme (vars w)) ->
  valid_theme (currentTheme (vars (initialised w))).
Proof.
  intros Hv. unfold initialised.
  destruct (readyState (page w)); [exact Hv | | ].
  all: cbn zeta;
       destruct (negb (truthy (themeSwitcher (vars (handles_looked_up w)))) ||
                 negb (truthy (themeIcon (vars (handles_looked_up w)))));
       [exact Hv | ].
  all: unfold listening; cbn; rewrite vars_applied; apply valid_loaded;
       rewrite currentTheme_subscribed; exact Hv.
Qed.

(** A registered function, called with any event, returns and keeps the
    mode valid. *)
Lemma call_listener_valid (f : Listener) (ev : Event) (w : World) :
  exists w', call_listener f ev w = Ok tt w' /\
    (valid_theme (currentTheme (vars w)) ->
     valid_theme (currentTheme (vars w'))).
Proof.
  destruct f; cbn.
  - exists (initialised w). split; [apply init_run | apply valid_initialised].
  - destruct ev; try (exists w; split; [reflexivity | tauto]).
    eexists. split; [apply handleSystemThemeChange_run | ].
    rewrite currentTheme_system_changed. tauto.
  - eexists. split; [apply handleThemeToggle_run | ].
    rewrite currentTheme_toggled. intros Hv. apply valid_advanced, Hv.
  - destruct ev; try (exists w; split; [reflexivity | tauto]).
    eexists. split; [apply handleKeyDown_run | ].
    destruct ((e_key =? "Enter") || (e_key =? " ")); [ | tauto].
    rewrite currentTheme_toggled. intros Hv. apply valid_advanced, Hv.
Qed.

Lemma dispatch_valid (ev : Event) (ls : list (string * Listener)) :
  forall w, exists w', dispatch ls ev w = Ok tt w' /\
    (valid_theme (currentTheme (vars w)) ->
     valid_theme (currentTheme (vars w'))).
Proof.
  induction ls as [ | [ty f] rest IH]; intros w; cbn [dispatch].
  - exists w. split; [reflexivity | tauto].
  - destruct (ty =? event_type ev).
    + destruct (call_listener_valid f ev w) as (w1 & Hrun & Hv1).
      destruct (IH w1) as (w2 & Hrest & Hv2).
      exists w2. split; [ | tauto].
      erewrite bind_Ok; [exact Hrest | ].
      unfold try_catch. rewrite Hrun. reflexivity.
    + destruct (IH w) as (w2 & Hrest & Hv2).
      exists w2. split; [ | exact Hv2].
      erewrite bind_Ok; [exact Hrest | reflexivity].
Qed.

Lemma perform_valid (a : Action) (w : World) :
  exists w', perform a w = Ok tt w' /\
    (valid_theme (currentTheme (vars w)) ->
     valid_theme (currentTheme (vars w'))).
Proof.
  assert (Hdispatch : forall ev ls w1,
    currentTheme (vars w1) = currentTheme (vars w) ->
    exists w', dispatch ls ev w1 = Ok tt w' /\
      (valid_theme (currentTheme (vars w)) ->
       valid_theme (currentTheme (vars w')))).
  { intros ev ls w1 <-. apply dispatch_valid. }
  destruct a; cbn [perform].
  - step. destruct (readyState (page w));
      try (exists w; split; [reflexivity | tauto]).
    step. step. apply Hdispatch. reflexivity.
  - step. destruct (matchMedia w) as [mq | ];
      [ | exists w; split; [reflexivity | tauto]].
    step. apply Hdispatch. reflexivity.
  - step. step. apply Hdispatch. reflexivity.
  - step. step. apply Hdispatch. reflexivity.
  - eexists. split; [apply toggleTheme_run | ].
    rewrite currentTheme_toggled. apply valid_advanced.
  - exists w. split; [reflexivity | tauto].
  - eexists. split; [reflexivity | tauto].
Qed.

Lemma reachable_valid_theme (w : World) :
  reachable w -> valid_theme (currentTheme (vars w)).
Proof.
  induction 1 as [env | w a Hreach IH].
  - unfold script. step. rewrite init_run. cbn [world_of].
    apply valid_initialised. cbn. unfold valid_theme. auto.
  - destruct (perform_valid a w) as (w' & -> & Hv). apply Hv, IH.
Qed.

(** ** The toggle *)

Lemma toggled_frame (w : World) :
  systemPrefersDark (vars (applied (saved (advanced w)))) =
    systemPrefersDark (vars w) /\
  themeSwitcher (vars (applied (saved (advanced w)))) = themeSwitcher (vars w) /\
  themeIcon (vars (applied (saved (advanced w)))) = themeIcon (vars w) /\
  matchMedia (applied (saved (advanced w))) = matchMedia w.
Proof.
  rewrite vars_applied, vars_saved, matchMedia_applied, matchMedia_saved.
  destruct (advanced_frame w) as (_ & _ & _ & Hmq & Hspd & Hsw & Hic).
  auto.
Qed.

Lemma localStorage_toggled (w : World) :
  localStorage (applied (saved (advanced w))) =
  match setItem_throws (localStorage w) with
  | Some _ => localStorage w
  | None =>
      put_items (<[STORAGE_KEY := currentTheme (vars (advanced w))]>
                   (items (localStorage w))) (localStorage w)
  end.
Proof.
  rewrite localStorage_applied. unfold saved.
  destruct (advanced_frame w) as (_ & -> & _).
  destruct (setItem_throws (localStorage w)); cbn;
    destruct (advanced_frame w) as (_ & -> & _); reflexivity.
Qed.

Lemma console_toggled (w : World) :
  console (applied (saved (advanced w))) =
  match setItem_throws (localStorage w) with
  | Some e => console w ++ [["Could not save theme preference:"; e]]
  | None => console w
  end.
Proof.
  rewrite console_applied. unfold saved.
  destruct (advanced_frame w) as (_ & -> & Hc & _).
  destruct (setItem_throws (localStorage w)); cbn; rewrite Hc; reflexivity.
Qed.

(** C1. [toggleTheme] returns, and advances [currentTheme] by the transition
    function of the specification: from AUTO to LIGHT when the system prefers
    dark and to DARK when it does not, from LIGHT to DARK, from DARK to AUTO.
    [systemPrefersDark] is unchanged.  The new value is then persisted (it is
    what [localStorage] holds under the key, unless [setItem] throws, which
    leaves the store as it was) and the page is made to show the new mode. *)
Theorem toggleTheme_advances (m : Spec.Mode) (w : World) :
  currentTheme (vars w) = Spec.literal m ->
  exists w',
    toggleTheme w = Ok tt w' /\
    currentTheme (vars w') =
      Spec.literal (Spec.next m (systemPrefersDark (vars w))) /\
    systemPrefersDark (vars w') = systemPrefersDark (vars w) /\
    match setItem_throws (localStorage w) with
    | None => items (localStorage w') !! STORAGE_KEY = Some (currentTheme (vars w'))
    | Some _ => localStorage w' = localStorage w
    end /\
    shows (Spec.next m (systemPrefersDark (vars w))) w'.
Proof.
  intros Hm. exists (applied (saved (advanced w))).
  pose proof (currentTheme_advanced m w Hm) as Hnext.
  destruct (toggled_frame w) as (Hspd & _).
  split; [apply toggleTheme_run | ].
  split; [rewrite currentTheme_toggled; exact Hnext | ].
  split; [exact Hspd | ].
  split.
  - rewrite localStorage_toggled, currentTheme_toggled.
    destruct (setItem_throws (localStorage w)); [reflexivity | ].
    cbn. apply lookup_insert_eq.
  - apply applied_shows. rewrite vars_saved. exact Hnext.
Qed.

Lemma toggleTheme_advances_witness :
  currentTheme (vars (running "auto" true)) = Spec.literal Spec.AUTO /\
  exists w', toggleTheme (running "auto" true) = Ok tt w' /\
             currentTheme (vars w') = "light" /\
             items (localStorage w') !! STORAGE_KEY = Some "light".
Proof.
  split; [reflexivity | ].
  destruct (toggleTheme_advances Spec.AUTO (running "auto" true) eq_refl)
    as (w' & Hrun & Hcur & _ & Hstore & _).
  exists w'. cbn in Hstore. rewrite Hcur in Hstore. auto.
Defined.

(** ** The effective theme *)

Lemma getCurrentTheme_run (w : World) :
  getCurrentTheme w =
  Ok {| current := currentTheme (vars w); effective := effectiveTheme w |} w.
Proof. reflexivity. Qed.

(** Each of the six combinations of mode and system preference is reached
    by evaluating the script in a suitable page. *)
Lemma every_mode_reachable (m : Spec.Mode) (dark : bool) :
  exists w, reachable w /\
    currentTheme (vars w) = Spec.literal m /\
    systemPrefersDark (vars w) = dark.
Proof.
  exists (world_of (script (fresh_page (Some (Spec.literal m)) dark))).
  split; [apply reach_script | ].
  destruct m, dark; vm_compute; split; reflexivity.
Qed.

(** C2. In every reachable state (and in any state whose [currentTheme] is
    one of the three constants) the effective theme that [applyTheme]
    computes, which is also the [effective] field [getCurrentTheme] returns,
    is LIGHT or DARK and never AUTO; AUTO resolves to DARK when the system
    prefers dark and to LIGHT otherwise. *)
Theorem effective_theme_light_or_dark (w : World) :
  reachable w \/ valid_theme (currentTheme (vars w)) ->
  (effectiveTheme w = THEMES.LIGHT \/ effectiveTheme w = THEMES.DARK) /\
  effectiveTheme w <> THEMES.AUTO /\
  (exists info, getCurrentTheme w = Ok info w /\
                current info = currentTheme (vars w) /\
                effective info = effectiveTheme w) /\
  (currentTheme (vars w) = THEMES.AUTO ->
   effectiveTheme w =
     if systemPrefersDark (vars w) then THEMES.DARK else THEMES.LIGHT) /\
  (currentTheme (vars w) <> THEMES.AUTO ->
   effectiveTheme w = currentTheme (vars w)).
Proof.
  intros Hw.
  assert (Hv : valid_theme (currentTheme (vars w))).
  { destruct Hw as [Hr | Hv]; [apply reachable_valid_theme, Hr | exact Hv]. }
  clear Hw. unfold effectiveTheme.
  split; [ | split; [ | split; [ | split]]].
  - destruct Hv as [-> | [-> | ->]]; cbn; auto.
    destruct (systemPrefersDark (vars w)); auto.
  - destruct Hv as [-> | [-> | ->]]; cbn; try discriminate.
    destruct (systemPrefersDark (vars w)); discriminate.
  - eexists. split; [apply getCurrentTheme_run | split; reflexivity].
  - intros ->. reflexivity.
  - intros Hne. apply String.eqb_neq in Hne. rewrite Hne. reflexivity.
Qed.

Lemma effective_theme_light_or_dark_witness :
  effectiveTheme (world_of (script (fresh_page None true))) = THEMES.DARK /\
  effectiveTheme (world_of (script (fresh_page None true))) <> THEMES.AUTO.
Proof.
  destruct (effective_theme_light_or_dark
              (world_of (script (fresh_page None true)))
              (or_introl (reach_script (fresh_page None true))))
    as (_ & Hne & _ & Hauto & _).
  split; [apply Hauto; reflexivity | exact Hne].
Defined.

(** ** Repeated toggles *)

Lemma toggles_S (n : nat) (w : World) :
  toggles (S n) w = toggles n (applied (saved (advanced w))).
Proof. cbn [toggles]. unfold bind. rewrite toggleTheme_run. reflexivity. Qed.

Lemma toggles_returns (n : nat) :
  forall w, exists w', toggles n w = Ok tt w'.
Proof.
  induction n as [ | n IH]; intros w.
  - exists w. reflexivity.
  - rewrite toggles_S. apply IH.
Qed.

(** The sequence of modes follows the specification's function, whatever
    else the world holds. *)
Lemma mode_after_spec (n : nat) :
  forall (m : Spec.Mode) (w : World),
    currentTheme (vars w) = Spec.literal m ->
    mode_after n w = Spec.literal (spec_after n m (systemPrefersDark (vars w))).
Proof.
  unfold mode_after.
  induction n as [ | n IH]; intros m w Hm.
  - exact Hm.
  - rewrite toggles_S. cbn [spec_after].
    destruct (toggled_frame w) as (Hspd & _).
    rewrite (IH (Spec.next m (systemPrefersDark (vars w)))), Hspd;
      [reflexivity | ].
    rewrite currentTheme_toggled. apply currentTheme_advanced, Hm.
Qed.

Lemma spec_after_add (a b : nat) (m : Spec.Mode) (dark : bool) :
  spec_after (a + b) m dark = spec_after b (spec_after a m dark) dark.
Proof.
  revert m. induction a as [ | a IH]; intros m; cbn; [reflexivity | apply IH].
Qed.

(** C3, as the code has it.  From AUTO with the system preference fixed:
    when the system prefers dark, the modes after one, two and three toggles
    are LIGHT, DARK and AUTO, and the sequence has period 3; when the system
    prefers light, the first toggle gives DARK and the second gives AUTO
    again, so the sequence has period 2, LIGHT is not visited, and the third
    toggle gives DARK. *)
Theorem toggle_cycle (w : World) :
  currentTheme (vars w) = THEMES.AUTO ->
  (forall n, exists w', toggles n w = Ok tt w') /\
  if systemPrefersDark (vars w) then
    mode_after 1 w = THEMES.LIGHT /\
    mode_after 2 w = THEMES.DARK /\
    mode_after 3 w = THEMES.AUTO /\
    (forall n, mode_after (3 + n) w = mode_after n w)
  else
    mode_after 1 w = THEMES.DARK /\
    mode_after 2 w = THEMES.AUTO /\
    mode_after 3 w = THEMES.DARK /\
    (forall n, mode_after (2 + n) w = mode_after n w).
Proof.
  intros Hauto.
  split; [intros n; apply toggles_returns | ].
  assert (Hseq : forall n, mode_after n w =
            Spec.literal (spec_after n Spec.AUTO (systemPrefersDark (vars w))))
    by (intros n; apply mode_after_spec, Hauto).
  destruct (systemPrefersDark (vars w)).
  - repeat split; try (rewrite Hseq; reflexivity).
    intros n. rewrite !Hseq, spec_after_add. reflexivity.
  - repeat split; try (rewrite Hseq; reflexivity).
    intros n. rewrite !Hseq, spec_after_add. reflexivity.
Qed.

Lemma toggle_cycle_witness :
  currentTheme (vars (running "auto" true)) = THEMES.AUTO /\
  mode_after 3 (running "auto" true) = THEMES.AUTO /\
  mode_after 4 (running "auto" true) = THEMES.LIGHT.
Proof.
  split; [reflexivity | ].
  destruct (toggle_cycle (running "auto" true) eq_refl) as (_ & Hcycle).
  cbn in Hcycle. destruct Hcycle as (H1 & _ & H3 & Hperiod).
  split; [exact H3 | ]. rewrite (Hperiod 1). exact H1.
Defined.

(** C3 as stated fails on a system that prefers light: starting from AUTO,
    the second toggle is already back at AUTO and the third leaves the mode at
    DARK. *)
Lemma three_toggles_light_system :
  currentTheme (vars (running "auto" false)) = THEMES.AUTO /\
  systemPrefersDark (vars (running "auto" false)) = false /\
  mode_after 1 (running "auto" false) = THEMES.DARK /\
  mode_after 2 (running "auto" false) = THEMES.AUTO /\
  mode_after 3 (running "auto" false) = THEMES.DARK /\
  mode_after 3 (running "auto" false) <> THEMES.AUTO.
Proof. vm_compute. repeat split; discriminate. Qed.

(** ** System preference changes *)

(** C4. The handler of the system signal returns and never changes
    [currentTheme]; of the script's variables it writes [systemPrefersDark]
    only, and it touches neither the store, the console nor the
    subscriptions.  When the mode is AUTO the final world is exactly the one
    [applyTheme] produces from the updated preference, and the page then
    shows AUTO under it; when the mode is LIGHT or DARK the page (body
    classes, icon classes, tooltip) is left as it was. *)
Theorem system_change_keeps_mode (e_matches : bool) (w : World) :
  exists w',
    handleSystemThemeChange e_matches w = Ok tt w' /\
    currentTheme (vars w') = currentTheme (vars w) /\
    systemPrefersDark (vars w') = e_matches /\
    themeSwitcher (vars w') = themeSwitcher (vars w) /\
    themeIcon (vars w') = themeIcon (vars w) /\
    localStorage w' = localStorage w /\
    console w' = console w /\
    matchMedia w' = matchMedia w /\
    (currentTheme (vars w) = THEMES.AUTO ->
       applyTheme (with_vars (put_systemPrefersDark e_matches) w) = Ok tt w' /\
       shows Spec.AUTO w') /\
    (currentTheme (vars w) <> THEMES.AUTO -> page w' = page w).
Proof.
  exists (system_changed e_matches w).
  split; [apply handleSystemThemeChange_run | ].
  unfold system_changed. cbn zeta.
  destruct (String.eqb_spec (currentTheme (vars w)) THEMES.AUTO) as [Hauto | Hman].
  - rewrite vars_applied, localStorage_applied, console_applied,
      matchMedia_applied.
    repeat (split; [reflexivity | ]).
    split; [ | intros Hne; contradiction].
    intros _. split; [apply applyTheme_run | ].
    apply applied_shows. exact Hauto.
  - repeat (split; [reflexivity | ]).
    split; [intros Hauto; contradiction | ].
    intros _. reflexivity.
Qed.

(** On a page that shows a manual DARK, a change of the system preference
    changes no class; in AUTO the body class follows the new preference
    while the icon stays the AUTO glyph. *)
Example system_change_on_manual_dark :
  let w := world_of (toggleTheme (running "light" true)) in
  currentTheme (vars w) = "dark" /\
  page (world_of (handleSystemThemeChange false w)) = page w.
Proof. vm_compute. split; reflexivity. Qed.

Example system_change_on_auto :
  let w := world_of (script (fresh_page None true)) in
  let w' := world_of (handleSystemThemeChange false w) in
  body_classes (page w) = ["home"; "manual-dark"] /\
  body_classes (page w') = ["home"; "manual-light"] /\
  icon_classes (page w) = ["fas"; "theme-icon"; "fa-adjust"] /\
  icon_classes (page w') = ["fas"; "theme-icon"; "fa-adjust"].
Proof. vm_compute. repeat split; reflexivity. Qed.

(** ** Persistence *)

Lemma literal_is_theme (m : Spec.Mode) :
  negb (Spec.literal m =? "") && bool_decide (Spec.literal m ∈ THEMES.values) = true.
Proof. destruct m; reflexivity. Qed.

Lemma not_literal_not_theme (s : string) :
  (forall m, s <> Spec.literal m) ->
  negb (s =? "") && bool_decide (s ∈ THEMES.values) = false.
Proof.
  intros Hs. apply andb_false_iff. right. apply bool_decide_eq_false.
  intros Hin. apply valid_theme_values, valid_theme_literal in Hin as [m Hm].
  exact (Hs m Hm).
Qed.

(** C5. With a store that accepts the write and the read: after
    [saveThemePreference] in a mode that is one of the three literals,
    [loadThemePreference] in a freshly evaluated script over the same store
    sets [currentTheme] to that literal.  A stored string that is none of
    the three literals, or no stored value at all, leaves a fresh script's
    [currentTheme] at its default, AUTO. *)
Theorem persistence_round_trip :
  (forall (m : Spec.Mode) (w fresh : World),
     currentTheme (vars w) = Spec.literal m ->
     setItem_throws (localStorage w) = None ->
     getItem_throws (localStorage w) = None ->
     exists w1,
       saveThemePreference w = Ok tt w1 /\
       items (localStorage w1) !! STORAGE_KEY = Some (Spec.literal m) /\
       (vars fresh = initial_vars ->
        localStorage fresh = localStorage w1 ->
        exists w2, loadThemePreference fresh = Ok tt w2 /\
                   currentTheme (vars w2) = Spec.literal m)) /\
  (forall (fresh : World),
     vars fresh = initial_vars ->
     match items (localStorage fresh) !! STORAGE_KEY with
     | Some s => forall m, s <> Spec.literal m
     | None => True
     end ->
     exists w2, loadThemePreference fresh = Ok tt w2 /\
                currentTheme (vars w2) = THEMES.AUTO).
Proof.
  split.
  - intros m w fresh Hm Hset Hget. exists (saved w).
    split; [apply saveThemePreference_run | ].
    unfold saved. rewrite Hset. cbn. rewrite Hm.
    split; [apply lookup_insert_eq | ].
    intros Hfresh Hstore. exists (loaded fresh).
    split; [apply loadThemePreference_run | ].
    unfold loaded. rewrite Hstore. cbn. rewrite Hget, lookup_insert_eq.
    rewrite literal_is_theme. reflexivity.
  - intros fresh Hfresh Hstored. exists (loaded fresh).
    split; [apply loadThemePreference_run | ].
    unfold loaded.
    destruct (getItem_throws (localStorage fresh)); [cbn; rewrite Hfresh; reflexivity | ].
    destruct (items (localStorage fresh) !! STORAGE_KEY) as [s | ];
      [ | rewrite Hfresh; reflexivity].
    rewrite (not_literal_not_theme s Hstored), Hfresh. reflexivity.
Qed.

Lemma persistence_round_trip_witness :
  (exists w2, loadThemePreference
                (with_vars (fun _ => initial_vars)
                   (world_of (saveThemePreference (running "dark" false)))) = Ok tt w2 /\
              currentTheme (vars w2) = "dark") /\
  (exists w2, loadThemePreference (fresh_page (Some "purple") false) = Ok tt w2 /\
              currentTheme (vars w2) = "auto").
Proof.
  destruct persistence_round_trip as [Hround Hbad].
  split.
  - destruct (Hround Spec.DARK (running "dark" false)
                (with_vars (fun _ => initial_vars)
                   (world_of (saveThemePreference (running "dark" false))))
                eq_refl eq_refl eq_refl) as (w1 & Hsave & _ & Hload).
    apply Hload; [reflexivity | ].
    vm_compute in Hsave. injection Hsave as <-. reflexivity.
  - apply (Hbad (fresh_page (Some "purple") false) eq_refl).
    vm_compute. intros [ | | ]; discriminate.
Defined.

(** ** Icon and tooltip *)

Lemma icon_written_glyph (m : Spec.Mode) (eff : string) (w : World) :
  currentTheme (vars w) = Spec.literal m ->
  eff = Spec.literal (Spec.resolve m (systemPrefersDark (vars w))) ->
  truthy (themeIcon (vars w)) = true ->
  icon_classes (page (icon_written eff w)) =
  ClassList.add (Spec.icon m) (ClassList.remove icon_glyphs (icon_classes (page w))).
Proof.
  intros Hm -> Hicon. unfold icon_written. rewrite Hicon, Hm. cbn.
  destruct m, (systemPrefersDark (vars w)); reflexivity.
Qed.

(** C6. With both elements held and the mode one of the three literals, an
    update leaves on the icon exactly one of the three glyph classes:
    fa-adjust in AUTO, fa-sun in manual DARK, fa-moon in manual LIGHT (its
    other classes are kept), and sets the title and the aria-label
    attributes to the same text: "Switch to light mode" in AUTO, "Switch to
    dark mode" in LIGHT, "Switch to auto mode" in DARK.  This holds for
    [applyTheme] and for the two update functions it calls. *)
Theorem icon_and_tooltip_table (m : Spec.Mode) (w : World) :
  currentTheme (vars w) = Spec.literal m ->
  truthy (themeIcon (vars w)) = true ->
  truthy (themeSwitcher (vars w)) = true ->
  let glyph_is (w' : World) :=
    (forall g, g ∈ icon_glyphs -> (g ∈ icon_classes (page w') <-> g = Spec.icon m)) /\
    (forall c, c ∉ icon_glyphs ->
       (c ∈ icon_classes (page w') <-> c ∈ icon_classes (page w))) in
  let tooltip_is (w' : World) :=
    switcher_attrs (page w') !! "title" = Some (Spec.tooltip m) /\
    switcher_attrs (page w') !! "aria-label" = Some (Spec.tooltip m) /\
    (forall a, a <> "title" -> a <> "aria-label" ->
       switcher_attrs (page w') !! a = switcher_attrs (page w) !! a) in
  (exists w', updateThemeIcon (effectiveTheme w) w = Ok tt w' /\ glyph_is w') /\
  (exists w', updateThemeTooltip w = Ok tt w' /\ tooltip_is w') /\
  (exists w', applyTheme w = Ok tt w' /\ glyph_is w' /\ tooltip_is w').
Proof.
  intros Hm Hicon Hsw glyph_is tooltip_is.
  assert (Hglyph : forall l,
    l = ClassList.add (Spec.icon m)
          (ClassList.remove icon_glyphs (icon_classes (page w))) ->
    (forall g, g ∈ icon_glyphs -> (g ∈ l <-> g = Spec.icon m)) /\
    (forall c, c ∉ icon_glyphs -> (c ∈ l <-> c ∈ icon_classes (page w)))).
  { intros l ->. split.
    - intros g Hg. rewrite elem_of_ClassList_add, elem_of_ClassList_remove. tauto.
    - intros c Hc. rewrite elem_of_ClassList_add, elem_of_ClassList_remove.
      assert (Spec.icon m ∈ icon_glyphs)
        by (destruct m; unfold icon_glyphs; cbn;
            rewrite !elem_of_cons; auto).
      split; [intros [-> | [? _]]; [contradiction | assumption] | tauto]. }
  assert (Htip : forall attrs,
    attrs = <["aria-label" := Spec.tooltip m]>
              (<["title" := Spec.tooltip m]> (switcher_attrs (page w))) ->
    attrs !! "title" = Some (Spec.tooltip m) /\
    attrs !! "aria-label" = Some (Spec.tooltip m) /\
    (forall a, a <> "title" -> a <> "aria-label" ->
       attrs !! a = switcher_attrs (page w) !! a)).
  { intros attrs ->. split; [ | split].
    - rewrite lookup_insert_ne by discriminate. apply lookup_insert_eq.
    - apply lookup_insert_eq.
    - intros a Ht Ha. rewrite !lookup_insert_ne by congruence. reflexivity. }
  assert (Htext : js_String (tooltip_for (currentTheme (vars w))) = Spec.tooltip m)
    by (rewrite Hm; destruct m; reflexivity).
  split; [ | split].
  - eexists. split; [apply updateThemeIcon_run | ].
    apply Hglyph, (icon_written_glyph m); auto using effectiveTheme_literal.
  - eexists. split; [apply updateThemeTooltip_run | ].
    apply Htip. unfold tooltip_written. rewrite Hsw, Htext. reflexivity.
  - eexists. split; [apply applyTheme_run | ]. split.
    + apply Hglyph. rewrite icon_classes_applied, Hicon, Hm.
      rewrite (effectiveTheme_literal m w Hm).
      destruct m, (systemPrefersDark (vars w)); reflexivity.
    + apply Htip. rewrite switcher_attrs_applied, Hsw, Htext. reflexivity.
Qed.

Lemma icon_and_tooltip_table_witness :
  exists w', applyTheme (running "dark" false) = Ok tt w' /\
    icon_classes (page w') = ["fas"; "theme-icon"; "fa-sun"] /\
    switcher_attrs (page w') !! "title" = Some "Switch to auto mode" /\
    switcher_attrs (page w') !! "aria-label" = Some "Switch to auto mode".
Proof.
  destruct (icon_and_tooltip_table Spec.DARK (running "dark" false)
              eq_refl eq_refl eq_refl)
    as (_ & _ & w' & Hrun & _ & Htitle & Haria & _).
  exists w'. split; [exact Hrun | ].
  split; [ | split; assumption].
  rewrite applyTheme_run in Hrun. injection Hrun as <-. vm_compute. reflexivity.
Defined.

(** ** Missing elements *)

Lemma falsy_handles_looked_up (w : World) :
  has_switcher (page w) = false \/ has_icon (page w) = false ->
  negb (truthy (themeSwitcher (vars (handles_looked_up w)))) ||
  negb (truthy (themeIcon (vars (handles_looked_up w)))) = true.
Proof.
  unfold handles_looked_up. cbn.
  destruct (has_switcher (page w)), (has_icon (page w));
    intros [H | H]; try discriminate H; reflexivity.
Qed.

(** C7. When [init] runs on a parsed document that lacks the toggle or its
    icon, it returns after one warning: nothing is subscribed to the system
    signal, the store is not read ([currentTheme] and [systemPrefersDark]
    keep their values and no second warning appears even if reading would
    throw), and the page, its listener lists included, is untouched.  Any
    number of later calls of the exported [toggleTheme] return as well. *)
Theorem init_without_handles (w : World) :
  readyState (page w) <> loading ->
  has_switcher (page w) = false \/ has_icon (page w) = false ->
  exists w',
    init w = Ok tt w' /\
    console w' = console w ++ [["Theme switcher elements not found"]] /\
    matchMedia w' = matchMedia w /\
    localStorage w' = localStorage w /\
    page w' = page w /\
    currentTheme (vars w') = currentTheme (vars w) /\
    systemPrefersDark (vars w') = systemPrefersDark (vars w) /\
    truthy (themeSwitcher (vars w')) && truthy (themeIcon (vars w')) = false /\
    (forall n, exists w'', toggles n w' = Ok tt w'').
Proof.
  intros Hready Hmissing. exists (initialised w).
  split; [apply init_run | ].
  pose proof (falsy_handles_looked_up w Hmissing) as Hfalsy.
  unfold initialised.
  destruct (readyState (page w)); [contradiction | | ];
    cbn zeta; rewrite Hfalsy; cbn.
  all: repeat (split; [reflexivity | ]).
  all: split; [ | intros n; apply toggles_returns].
  all: destruct (has_switcher (page w)), (has_icon (page w));
       destruct Hmissing as [H | H]; try discriminate H; reflexivity.
Qed.

Lemma init_without_handles_witness :
  exists w',
    init (unstarted blocked_storage) = Ok tt w' /\
    console w' = [["Theme switcher elements not found"]] /\
    matchMedia w' = Some (mkMQ true []) /\
    switcher_listeners (page w') = [] /\
    currentTheme (vars w') = "auto" /\
    exists w'', toggles 4 w' = Ok tt w''.
Proof.
  assert (Hready : readyState (page (unstarted blocked_storage)) <> loading)
    by discriminate.
  assert (Hmissing : has_switcher (page (unstarted blocked_storage)) = false \/
                     has_icon (page (unstarted blocked_storage)) = false)
    by (left; reflexivity).
  destruct (init_without_handles (unstarted blocked_storage) Hready Hmissing)
    as (w' & Hrun & Hconsole & Hmq & _ & Hpage & Hcur & _ & _ & Htoggles).
  exists w'. rewrite Hpage.
  repeat (split; [assumption || reflexivity | ]). apply Htoggles.
Defined.

(** A document that has the toggle but not its icon: [init] gives up in the
    same way, yet it keeps the toggle in [themeSwitcher]. *)
Example init_without_icon :
  let w := mkWorld initial_vars
             (mkPage complete true false [] [] ∅ [] [] false)
             None working_storage [] in
  init w =
  Ok tt (mkWorld (mkVars element null "auto" false) (page w) None working_storage
           [["Theme switcher elements not found"]]).
Proof. reflexivity. Qed.

(** While the document is still loading, [init] only registers itself. *)
Example init_while_loading :
  let w := mkWorld initial_vars
             (mkPage loading false false [] [] ∅ [] [] false)
             None working_storage [] in
  init w = Ok tt (with_page (put_doc_listeners [("DOMContentLoaded", L_init)]) w).
Proof. reflexivity. Qed.

(** ** Failing store *)

(** C8. A read or a write of the store that throws is caught where it
    happens: [loadThemePreference] and [saveThemePreference] return in every
    world, and when the access throws they change nothing but the console,
    which gets one warning.  [toggleTheme] then still advances the mode and
    makes the page show the new mode, the store staying as it was. *)
Theorem storage_failure_is_caught (w : World) :
  (exists w', loadThemePreference w = Ok tt w') /\
  (exists w', saveThemePreference w = Ok tt w') /\
  (forall e, getItem_throws (localStorage w) = Some e ->
     loadThemePreference w =
     Ok tt (with_console
              (fun c => c ++ [["Could not load theme preference:"; e]]) w)) /\
  (forall e, setItem_throws (localStorage w) = Some e ->
     saveThemePreference w =
     Ok tt (with_console
              (fun c => c ++ [["Could not save theme preference:"; e]]) w)) /\
  (forall e m,
     setItem_throws (localStorage w) = Some e ->
     currentTheme (vars w) = Spec.literal m ->
     exists w',
       toggleTheme w = Ok tt w' /\
       currentTheme (vars w') =
         Spec.literal (Spec.next m (systemPrefersDark (vars w))) /\
       shows (Spec.next m (systemPrefersDark (vars w))) w' /\
       localStorage w' = localStorage w /\
       console w' = console w ++ [["Could not save theme preference:"; e]]).
Proof.
  split; [eexists; apply loadThemePreference_run | ].
  split; [eexists; apply saveThemePreference_run | ].
  split; [ | split].
  - intros e He. rewrite loadThemePreference_run. unfold loaded.
    rewrite He. reflexivity.
  - intros e He. rewrite saveThemePreference_run. unfold saved.
    rewrite He. reflexivity.
  - intros e m He Hm. exists (applied (saved (advanced w))).
    pose proof (currentTheme_advanced m w Hm) as Hnext.
    split; [apply toggleTheme_run | ].
    split; [rewrite currentTheme_toggled; exact Hnext | ].
    split; [apply applied_shows; rewrite vars_saved; exact Hnext | ].
    rewrite localStorage_toggled, console_toggled, He. split; reflexivity.
Qed.

Example toggle_with_blocked_storage :
  toggleTheme (with_localStorage (fun _ => blocked_storage) (running "light" true)) =
  Ok tt (mkWorld (mkVars element element "dark" true)
           (mkPage complete true true ["home"; "manual-dark"]
              ["fas"; "theme-icon"; "fa-sun"]
              (<["aria-label" := "Switch to auto mode"]>
                 (<["title" := "Switch to auto mode"]> ∅))
              [] [] false)
           (Some (mkMQ true [("change", L_handleSystemThemeChange)]))
           blocked_storage
           [["Could not save theme preference:"; "QuotaExceededError"]]).
Proof. vm_compute. reflexivity. Qed.

Lemma storage_failure_is_caught_witness :
  exists w',
    toggleTheme (with_localStorage (fun _ => blocked_storage) (running "dark" false)) =
      Ok tt w' /\
    currentTheme (vars w') = "auto" /\
    localStorage w' = blocked_storage /\
    console w' = [["Could not save theme preference:"; "QuotaExceededError"]].
Proof.
  destruct (storage_failure_is_caught
              (with_localStorage (fun _ => blocked_storage) (running "dark" false)))
    as (_ & _ & _ & _ & Htoggle).
  destruct (Htoggle "QuotaExceededError" Spec.DARK eq_refl eq_refl)
    as (w' & Hrun & Hcur & _ & Hstore & Hconsole).
  exists w'. auto.
Defined.

(** ** The body's theme class *)

Lemma theme_class_cases (c : string) :
  c ∈ theme_classes <-> c = BODY_CLASS_LIGHT \/ c = BODY_CLASS_DARK.
Proof.
  unfold theme_classes. rewrite !elem_of_cons, elem_of_nil. tauto.
Qed.

(** C9. [applyTheme] returns in every world.  The body's class list it leaves
    is the old one with both theme classes removed and then the class of the
    effective theme added.  So the body carries exactly one of manual-light
    and manual-dark afterwards, manual-dark if and only if the effective
    theme is DARK, and its other classes are the ones it had. *)
Theorem applyTheme_one_theme_class (w : World) :
  exists w',
    applyTheme w = Ok tt w' /\
    body_classes (page w') =
      ClassList.add
        (if effectiveTheme w =? THEMES.DARK then BODY_CLASS_DARK
         else BODY_CLASS_LIGHT)
        (ClassList.remove [BODY_CLASS_LIGHT; BODY_CLASS_DARK]
           (body_classes (page w))) /\
    (BODY_CLASS_DARK ∈ body_classes (page w') <-> effectiveTheme w = THEMES.DARK) /\
    (BODY_CLASS_LIGHT ∈ body_classes (page w') <-> effectiveTheme w <> THEMES.DARK) /\
    (BODY_CLASS_DARK ∈ body_classes (page w') <->
     BODY_CLASS_LIGHT ∉ body_classes (page w')) /\
    (forall c, c ∉ theme_classes ->
       (c ∈ body_classes (page w') <-> c ∈ body_classes (page w))) /\
    effectiveTheme w' = effectiveTheme w.
Proof.
  exists (applied w). split; [apply applyTheme_run | ].
  split; [apply body_classes_applied | ].
  rewrite body_classes_applied.
  assert (Hmember : forall c,
    c ∈ ClassList.add
          (if effectiveTheme w =? THEMES.DARK then BODY_CLASS_DARK
           else BODY_CLASS_LIGHT)
          (ClassList.remove [BODY_CLASS_LIGHT; BODY_CLASS_DARK]
             (body_classes (page w))) <->
    c = (if effectiveTheme w =? THEMES.DARK then BODY_CLASS_DARK
         else BODY_CLASS_LIGHT) \/
    (c ∈ body_classes (page w) /\ c ∉ theme_classes)).
  { intros c. rewrite elem_of_ClassList_add, elem_of_ClassList_remove.
    reflexivity. }
  assert (Hdark : BODY_CLASS_DARK ∈ theme_classes)
    by (apply theme_class_cases; auto).
  assert (Hlight : BODY_CLASS_LIGHT ∈ theme_classes)
    by (apply theme_class_cases; auto).
  assert (Hne : BODY_CLASS_DARK <> BODY_CLASS_LIGHT) by discriminate.
  assert (Hone : (if effectiveTheme w =? THEMES.DARK then BODY_CLASS_DARK
                  else BODY_CLASS_LIGHT) ∈ theme_classes)
    by (destruct (effectiveTheme w =? THEMES.DARK); assumption).
  rewrite !Hmember.
  split; [ | split; [ | split; [ | split]]].
  - destruct (String.eqb_spec (effectiveTheme w) THEMES.DARK); split;
      (tauto || (intros [H0 | [_ H0]]; congruence) || congruence).
  - destruct (String.eqb_spec (effectiveTheme w) THEMES.DARK); split;
      (tauto || (intros [H0 | [_ H0]]; congruence) || congruence).
  - destruct (effectiveTheme w =? THEMES.DARK); split.
    + intros _ [H0 | [_ H0]]; [discriminate H0 | tauto].
    + tauto.
    + intros [H0 | [_ H0]]; [discriminate H0 | tauto].
    + intros H0. exfalso. apply H0. tauto.
  - intros c Hc. rewrite Hmember. split; [ | tauto].
    intros [-> | [Hin _]]; [contradiction | exact Hin].
  - apply effectiveTheme_vars, vars_applied.
Qed.

Example applyTheme_replaces_stale_class :
  body_classes
    (page (world_of (applyTheme
       (with_page (put_body_classes ["manual-dark"; "home"; "manual-light"])
          (running "light" true))))) =
  ["home"; "manual-light"].
Proof. vm_compute. reflexivity. Qed.

(** ** Toggling without the elements *)

Lemma next_differs (m : Spec.Mode) (dark : bool) :
  Spec.literal (Spec.next m dark) <> Spec.literal m.
Proof. destruct m, dark; discriminate. Qed.

(** C10. With [themeSwitcher] and [themeIcon] both unset (and the mode one
    of the three literals), [toggleTheme] still returns, still moves
    [currentTheme] to the next mode, which differs from the old one, still
    writes it to the store (or logs the warning when the write throws) and
    still replaces the body's theme class by the one of the new effective
    theme.  The icon's classes and the toggle's attributes are as before:
    [updateThemeIcon] and [updateThemeTooltip] return at their first line. *)
Theorem toggleTheme_without_handles (m : Spec.Mode) (w : World) :
  truthy (themeSwitcher (vars w)) = false ->
  truthy (themeIcon (vars w)) = false ->
  currentTheme (vars w) = Spec.literal m ->
  let m' := Spec.next m (systemPrefersDark (vars w)) in
  exists w',
    toggleTheme w = Ok tt w' /\
    currentTheme (vars w') = Spec.literal m' /\
    currentTheme (vars w') <> currentTheme (vars w) /\
    match setItem_throws (localStorage w) with
    | None =>
        items (localStorage w') !! STORAGE_KEY = Some (Spec.literal m') /\
        console w' = console w
    | Some e =>
        localStorage w' = localStorage w /\
        console w' = console w ++ [["Could not save theme preference:"; e]]
    end /\
    body_classes (page w') =
      ClassList.add
        (Spec.body_class (Spec.resolve m' (systemPrefersDark (vars w))))
        (ClassList.remove [BODY_CLASS_LIGHT; BODY_CLASS_DARK]
           (body_classes (page w))) /\
    icon_classes (page w') = icon_classes (page w) /\
    switcher_attrs (page w') = switcher_attrs (page w) /\
    (forall eff, updateThemeIcon eff w' = Ok tt w') /\
    updateThemeTooltip w' = Ok tt w'.
Proof.
  intros Hsw Hicon Hm m'. exists (applied (saved (advanced w))).
  pose proof (currentTheme_advanced m w Hm) as Hnext. fold m' in Hnext.
  destruct (toggled_frame w) as (Hspd & Hsw' & Hicon' & _).
  destruct (advanced_frame w) as (Hpage & _ & _ & _ & Hspd0 & Hsw0 & Hicon0).
  split; [apply toggleTheme_run | ].
  split; [rewrite currentTheme_toggled; exact Hnext | ].
  split; [rewrite currentTheme_toggled, Hnext, Hm; apply next_differs | ].
  split.
  { rewrite localStorage_toggled, console_toggled.
    destruct (setItem_throws (localStorage w)); [split; reflexivity | ].
    cbn. rewrite lookup_insert_eq, Hnext. split; reflexivity. }
  split.
  { rewrite body_classes_applied, page_saved, Hpage.
    rewrite (effectiveTheme_literal m' (saved (advanced w)))
      by (rewrite vars_saved; exact Hnext).
    rewrite vars_saved, Hspd0.
    destruct m', (systemPrefersDark (vars w)); reflexivity. }
  split.
  { rewrite icon_classes_applied, vars_saved, Hicon0, Hicon, page_saved, Hpage.
    reflexivity. }
  split.
  { rewrite switcher_attrs_applied, vars_saved, Hsw0, Hsw, page_saved, Hpage.
    reflexivity. }
  split.
  - intros eff. rewrite updateThemeIcon_run. unfold icon_written.
    rewrite Hicon', Hicon. reflexivity.
  - rewrite updateThemeTooltip_run. unfold tooltip_written.
    rewrite Hsw', Hsw. reflexivity.
Qed.

Lemma toggleTheme_without_handles_witness :
  exists w',
    toggleTheme (unstarted working_storage) = Ok tt w' /\
    currentTheme (vars w') = "dark" /\
    items (localStorage w') !! STORAGE_KEY = Some "dark" /\
    body_classes (page w') = ["home"; "manual-dark"] /\
    icon_classes (page w') = [] /\
    switcher_attrs (page w') = ∅.
Proof.
  destruct (toggleTheme_without_handles Spec.AUTO (unstarted working_storage)
              eq_refl eq_refl eq_refl)
    as (w' & Hrun & Hcur & _ & [Hstore _] & Hbody & Hicon & Hattrs & _).
  exists w'. split; [exact Hrun | ].
  split; [exact Hcur | ]. split; [exact Hstore | ].
  split; [exact Hbody | ]. split; [exact Hicon | exact Hattrs].
Defined.

(** ** Re-applying the theme *)

Lemma ClassList_remove_idem (ts l : list string) :
  ClassList.remove ts (ClassList.remove ts l) = ClassList.remove ts l.
Proof.
  unfold ClassList.remove. induction l as [ | x l IH]; [reflexivity | ].
  destruct (decide (x ∉ ts)) as [Hx | Hx].
  - rewrite (filter_cons_True _ x l Hx), (filter_cons_True _ x _ Hx), IH.
    reflexivity.
  - rewrite (filter_cons_False _ x l Hx). exact IH.
Qed.

Lemma ClassList_add_fresh (t : string) (ts l : list string) :
  t ∈ ts -> ClassList.add t (ClassList.remove ts l) = ClassList.remove ts l ++ [t].
Proof.
  intros Ht. unfold ClassList.add.
  destruct (decide (t ∈ ClassList.remove ts l)) as [Hin | ]; [ | reflexivity].
  apply elem_of_ClassList_remove in Hin. tauto.
Qed.

(** Removing and adding again a class that was just put there by the same
    two steps gives back the same list. *)
Lemma ClassList_readd (t : string) (ts l : list string) :
  t ∈ ts ->
  ClassList.add t (ClassList.remove ts (ClassList.add t (ClassList.remove ts l))) =
  ClassList.add t (ClassList.remove ts l).
Proof.
  intros Ht. rewrite (ClassList_add_fresh t ts l Ht).
  unfold ClassList.remove at 1. rewrite filter_app.
  rewrite (filter_cons_False _ t []) by tauto. rewrite filter_nil.
  rewrite app_nil_r. fold (ClassList.remove ts (ClassList.remove ts l)).
  rewrite ClassList_remove_idem. apply ClassList_add_fresh, Ht.
Qed.

Lemma insert_pair_idem (t : string) (m : gmap string string) :
  <["aria-label" := t]> (<["title" := t]> (<["aria-label" := t]> (<["title" := t]> m))) =
  <["aria-label" := t]> (<["title" := t]> m).
Proof.
  apply map_eq. intros k. rewrite !lookup_insert.
  repeat case_decide; reflexivity.
Qed.

Lemma world_eq (w1 w2 : World) :
  vars w1 = vars w2 -> page w1 = page w2 -> matchMedia w1 = matchMedia w2 ->
  localStorage w1 = localStorage w2 -> console w1 = console w2 -> w1 = w2.
Proof. destruct w1, w2. cbn. congruence. Qed.

Lemma page_eq (p1 p2 : Page) :
  readyState p1 = readyState p2 -> has_switcher p1 = has_switcher p2 ->
  has_icon p1 = has_icon p2 -> body_classes p1 = body_classes p2 ->
  icon_classes p1 = icon_classes p2 -> switcher_attrs p1 = switcher_attrs p2 ->
  doc_listeners p1 = doc_listeners p2 ->
  switcher_listeners p1 = switcher_listeners p2 ->
  defaultPrevented p1 = defaultPrevented p2 -> p1 = p2.
Proof. destruct p1, p2. cbn. congruence. Qed.

(** [applied] writes three fields of the page and nothing else. *)
Lemma page_frame_applied (w : World) :
  readyState (page (applied w)) = readyState (page w) /\
  has_switcher (page (applied w)) = has_switcher (page w) /\
  has_icon (page (applied w)) = has_icon (page w) /\
  doc_listeners (page (applied w)) = doc_listeners (page w) /\
  switcher_listeners (page (applied w)) = switcher_listeners (page w) /\
  defaultPrevented (page (applied w)) = defaultPrevented (page w).
Proof. open_applied w; repeat split. Qed.

Lemma body_class_in_theme_classes (eff : string) :
  (if eff =? THEMES.DARK then BODY_CLASS_DARK else BODY_CLASS_LIGHT)
    ∈ [BODY_CLASS_LIGHT; BODY_CLASS_DARK].
Proof. destruct (eff =? THEMES.DARK); rewrite !elem_of_cons; auto. Qed.

Lemma glyph_in_icon_glyphs (cur eff : string) :
  (if cur =? THEMES.AUTO then "fa-adjust"
   else if eff =? THEMES.DARK then "fa-sun" else "fa-moon")
    ∈ ["fa-moon"; "fa-sun"; "fa-adjust"].
Proof.
  destruct (cur =? THEMES.AUTO), (eff =? THEMES.DARK);
    rewrite !elem_of_cons; auto.
Qed.

Lemma applied_idem (w : World) : applied (applied w) = applied w.
Proof.
  pose proof (effectiveTheme_vars _ _ (vars_applied w)) as Heff.
  destruct (page_frame_applied (applied w)) as (H1 & H2 & H3 & H4 & H5 & H6).
  apply world_eq;
    [apply vars_applied | | apply matchMedia_applied
    | apply localStorage_applied | apply console_applied].
  apply page_eq; try assumption.
  - rewrite (body_classes_applied (applied w)), Heff, body_classes_applied.
    apply ClassList_readd, body_class_in_theme_classes.
  - rewrite (icon_classes_applied (applied w)), Heff, vars_applied,
      icon_classes_applied.
    destruct (truthy (themeIcon (vars w))); [ | reflexivity].
    apply ClassList_readd, glyph_in_icon_glyphs.
  - rewrite (switcher_attrs_applied (applied w)), vars_applied,
      switcher_attrs_applied.
    destruct (truthy (themeSwitcher (vars w))); [ | reflexivity].
    apply insert_pair_idem.
Qed.

(** X1. Applying the theme is idempotent: the world [applyTheme] ends in is
    a fixed point of [applyTheme], so a second run adds no class, moves no
    class and rewrites no attribute. *)
Theorem applyTheme_idempotent (w : World) :
  exists w', applyTheme w = Ok tt w' /\ applyTheme w' = Ok tt w'.
Proof.
  exists (applied w). split; [apply applyTheme_run | ].
  rewrite applyTheme_run, applied_idem. reflexivity.
Qed.

(** ** A successful [init] *)

Lemma elem_of_add_listener (x : string * Listener) (ty : string) (f : Listener)
    (ls : list (string * Listener)) :
  x ∈ add_listener ty f ls <-> x = (ty, f) \/ x ∈ ls.
Proof.
  unfold add_listener. destruct (decide ((ty, f) ∈ ls)) as [Hin | Hout].
  - split; [tauto | intros [-> | H]; assumption].
  - rewrite elem_of_app, list_elem_of_singleton. tauto.
Qed.

(** [shows] looks at the three written fields, the two handles and the
    system preference only. *)
Lemma shows_ext (m : Spec.Mode) (w1 w2 : World) :
  systemPrefersDark (vars w1) = systemPrefersDark (vars w2) ->
  themeSwitcher (vars w1) = themeSwitcher (vars w2) ->
  themeIcon (vars w1) = themeIcon (vars w2) ->
  body_classes (page w1) = body_classes (page w2) ->
  icon_classes (page w1) = icon_classes (page w2) ->
  switcher_attrs (page w1) = switcher_attrs (page w2) ->
  shows m w1 -> shows m w2.
Proof.
  unfold shows. intros -> -> -> -> -> ->. tauto.
Qed.

Lemma loaded_frame (w : World) :
  page (loaded w) = page w /\
  localStorage (loaded w) = localStorage w /\
  matchMedia (loaded w) = matchMedia w /\
  systemPrefersDark (vars (loaded w)) = systemPrefersDark (vars w) /\
  themeSwitcher (vars (loaded w)) = themeSwitcher (vars w) /\
  themeIcon (vars (loaded w)) = themeIcon (vars w).
Proof.
  unfold loaded.
  destruct (getItem_throws (localStorage w)); [repeat split | ].
  destruct (items (localStorage w) !! STORAGE_KEY) as [s | ]; [ | repeat split].
  destruct (negb (s =? "") && bool_decide (s ∈ THEMES.values)); repeat split.
Qed.

Lemma subscribed_frame (w : World) :
  page (subscribed w) = page w /\
  localStorage (subscribed w) = localStorage w /\
  console (subscribed w) = console w /\
  currentTheme (vars (subscribed w)) = currentTheme (vars w) /\
  themeSwitcher (vars (subscribed w)) = themeSwitcher (vars w) /\
  themeIcon (vars (subscribed w)) = themeIcon (vars w) /\
  systemPrefersDark (vars (subscribed w)) =
    match matchMedia w with
    | Some mq => matches mq
    | None => systemPrefersDark (vars w)
    end /\
  matchMedia (subscribed w) =
    match matchMedia w with
    | Some mq =>
        Some (mkMQ (matches mq)
                (add_listener "change" L_handleSystemThemeChange (mq_listeners mq)))
    | None => None
    end.
Proof.
  unfold subscribed. destruct (matchMedia w) as [mq | ] eqn:Hmq; cbn;
    rewrite ?Hmq; repeat split.
Qed.

(** What [init] leaves behind on a parsed document that has the toggle and
    its icon. *)
Lemma initialised_ready (w : World) :
  readyState (page w) <> loading ->
  has_switcher (page w) = true ->
  has_icon (page w) = true ->
  let w' := initialised w in
  themeSwitcher (vars w') = element /\
  themeIcon (vars w') = element /\
  systemPrefersDark (vars w') =
    match matchMedia w with
    | Some mq => matches mq
    | None => systemPrefersDark (vars w)
    end /\
  currentTheme (vars w') = currentTheme (vars (loaded w)) /\
  (forall m, currentTheme (vars w') = Spec.literal m -> shows m w') /\
  switcher_listeners (page w') =
    add_listener "keydown" L_handleKeyDown
      (add_listener "click" L_handleThemeToggle (switcher_listeners (page w))) /\
  matchMedia w' =
    match matchMedia w with
    | Some mq =>
        Some (mkMQ (matches mq)
                (add_listener "change" L_handleSystemThemeChange (mq_listeners mq)))
    | None => None
    end /\
  localStorage w' = localStorage w /\
  doc_listeners (page w') = doc_listeners (page w) /\
  readyState (page w') = readyState (page w) /\
  has_switcher (page w') = true /\ has_icon (page w') = true.
Proof.
  intros Hready Hsw Hic w'.
  assert (Hw' : w' = listening (applied (loaded (subscribed (handles_looked_up w))))).
  { unfold w', initialised.
    destruct (readyState (page w)); [contradiction | | ];
      unfold handles_looked_up; rewrite Hsw, Hic; reflexivity. }
  set (w0 := handles_looked_up w) in *.
  assert (Hw0 : vars w0 = mkVars element element (currentTheme (vars w))
                            (systemPrefersDark (vars w)) /\
                page w0 = page w /\ matchMedia w0 = matchMedia w /\
                localStorage w0 = localStorage w /\ console w0 = console w).
  { unfold w0, handles_looked_up. rewrite Hsw, Hic. repeat split. }
  destruct Hw0 as (Hv0 & Hp0 & Hm0 & Hs0 & Hc0).
  destruct (subscribed_frame w0) as (Hp1 & Hs1 & _ & Hcur1 & Hsw1 & Hic1 & Hspd1 & Hm1).
  destruct (loaded_frame (subscribed w0)) as (Hp2 & Hs2 & Hm2 & Hspd2 & Hsw2 & Hic2).
  destruct (page_frame_applied (loaded (subscribed w0)))
    as (Hrs3 & Hhs3 & Hhi3 & Hdl3 & Hsl3 & _).
  rewrite Hw'.
  assert (Hvars : vars (listening (applied (loaded (subscribed w0)))) =
                  vars (loaded (subscribed w0)))
    by (unfold listening; cbn; apply vars_applied).
  rewrite Hvars.
  split; [rewrite Hsw2, Hsw1, Hv0; reflexivity | ].
  split; [rewrite Hic2, Hic1, Hv0; reflexivity | ].
  split; [rewrite Hspd2, Hspd1, Hm0, Hv0; reflexivity | ].
  split.
  { unfold loaded. rewrite Hs1, Hs0.
    destruct (getItem_throws (localStorage w)); [cbn; rewrite Hcur1, Hv0; reflexivity | ].
    destruct (items (localStorage w) !! STORAGE_KEY) as [s | ];
      [ | rewrite Hcur1, Hv0; reflexivity].
    destruct (negb (s =? "") && bool_decide (s ∈ THEMES.values));
      [reflexivity | rewrite Hcur1, Hv0; reflexivity]. }
  split.
  { intros m Hm.
    apply (shows_ext m (applied (loaded (subscribed w0))));
      try (unfold listening; cbn; rewrite ?vars_applied; reflexivity).
    apply applied_shows, Hm. }
  split.
  { unfold listening. cbn. rewrite Hsl3, Hp2, Hp1, Hp0. reflexivity. }
  split.
  { unfold listening. cbn. rewrite matchMedia_applied, Hm2, Hm1, Hm0. reflexivity. }
  split.
  { unfold listening. cbn. rewrite localStorage_applied, Hs2, Hs1, Hs0. reflexivity. }
  split.
  { unfold listening. cbn. rewrite Hdl3, Hp2, Hp1, Hp0. reflexivity. }
  split.
  { unfold listening. cbn. rewrite Hrs3, Hp2, Hp1, Hp0. reflexivity. }
  split.
  - unfold listening. cbn. rewrite Hhs3, Hp2, Hp1, Hp0. exact Hsw.
  - unfold listening. cbn. rewrite Hhi3, Hp2, Hp1, Hp0. exact Hic.
Qed.

(** X2. On a parsed document that has the toggle and its icon, [init]
    returns with both elements held, [systemPrefersDark] equal to what the
    media query reports (unchanged where [matchMedia] is missing),
    [currentTheme] as [loadThemePreference] leaves it, the page showing that
    mode, the click and keydown listeners on the toggle, the change listener
    on the media query, and the store untouched. *)
Theorem init_success (w : World) :
  readyState (page w) <> loading ->
  has_switcher (page w) = true ->
  has_icon (page w) = true ->
  exists w',
    init w = Ok tt w' /\
    themeSwitcher (vars w') = element /\
    themeIcon (vars w') = element /\
    systemPrefersDark (vars w') =
      match matchMedia w with
      | Some mq => matches mq
      | None => systemPrefersDark (vars w)
      end /\
    currentTheme (vars w') = currentTheme (vars (world_of (loadThemePreference w))) /\
    (forall m, currentTheme (vars w') = Spec.literal m -> shows m w') /\
    ("click", L_handleThemeToggle) ∈ switcher_listeners (page w') /\
    ("keydown", L_handleKeyDown) ∈ switcher_listeners (page w') /\
    match matchMedia w with
    | Some mq =>
        exists mq', matchMedia w' = Some mq' /\ matches mq' = matches mq /\
                    ("change", L_handleSystemThemeChange) ∈ mq_listeners mq'
    | None => matchMedia w' = None
    end /\
    localStorage w' = localStorage w.
Proof.
  intros Hready Hsw Hic. exists (initialised w).
  destruct (initialised_ready w Hready Hsw Hic)
    as (H1 & H2 & H3 & H4 & H5 & H6 & H7 & H8 & _).
  split; [apply init_run | ].
  repeat (split; [assumption | ]).
  split; [rewrite loadThemePreference_run; exact H4 | ].
  split; [exact H5 | ].
  split; [rewrite H6, !elem_of_add_listener; auto | ].
  split; [rewrite H6, !elem_of_add_listener; auto | ].
  split; [ | exact H8].
  destruct (matchMedia w) as [mq | ]; [ | exact H7].
  eexists. split; [exact H7 | ]. cbn.
  split; [reflexivity | ]. rewrite elem_of_add_listener. auto.
Qed.

Lemma init_success_witness :
  exists w',
    init (fresh_page (Some "light") true) = Ok tt w' /\
    currentTheme (vars w') = "light" /\
    systemPrefersDark (vars w') = true /\
    shows Spec.LIGHT w'.
Proof.
  assert (Hready : readyState (page (fresh_page (Some "light") true)) <> loading)
    by discriminate.
  destruct (init_success (fresh_page (Some "light") true) Hready eq_refl eq_refl)
    as (w' & Hrun & _ & _ & Hspd & Hcur & Hshows & _).
  exists w'. split; [exact Hrun | ].
  assert (Hlight : currentTheme (vars w') = "light") by (rewrite Hcur; reflexivity).
  split; [exact Hlight | ]. split; [exact Hspd | ].
  apply Hshows. exact Hlight.
Defined.

(** ** Deferred start and events *)

Lemma script_run (env : World) :
  script env = Ok tt (initialised (with_vars (fun _ => initial_vars) env)).
Proof. unfold script. step. apply init_run. Qed.

Lemma add_listener_fresh (ty : string) (f : Listener)
    (ls : list (string * Listener)) :
  (ty, f) ∉ ls -> add_listener ty f ls = ls ++ [(ty, f)].
Proof.
  intros Hout. unfold add_listener.
  destruct (decide ((ty, f) ∈ ls)); [contradiction | reflexivity].
Qed.

(** Listeners of other event types are passed over. *)
Lemma dispatch_skip (ev : Event) (ls : list (string * Listener)) (w : World) :
  (forall f, (event_type ev, f) ∉ ls) -> dispatch ls ev w = Ok tt w.
Proof.
  induction ls as [ | [ty f] rest IH]; intros Hnone; [reflexivity | ].
  cbn [dispatch].
  destruct (String.eqb_spec ty (event_type ev)) as [-> | Hne].
  - exfalso. apply (Hnone f). left.
  - step. apply IH. intros g Hg. apply (Hnone g). right. exact Hg.
Qed.

Lemma dispatch_app (ev : Event) (l1 l2 : list (string * Listener)) :
  forall w, dispatch (l1 ++ l2) ev w =
            dispatch l2 ev (world_of (dispatch l1 ev w)).
Proof.
  induction l1 as [ | [ty f] rest IH]; intros w; [reflexivity | ].
  cbn [app dispatch].
  destruct (ty =? event_type ev).
  - destruct (call_listener_valid f ev w) as (w1 & Hrun & _).
    assert (Htry : try_catch (call_listener f ev) (fun _ => ret tt) w = Ok tt w1)
      by (unfold try_catch; rewrite Hrun; reflexivity).
    rewrite !(bind_Ok _ _ w w1 tt Htry). apply IH.
  - step. step. apply IH.
Qed.

Lemma dispatch_one (ev : Event) (f : Listener) (w : World) :
  dispatch [(event_type ev, f)] ev w = Ok tt (world_of (call_listener f ev w)).
Proof.
  cbn [dispatch]. rewrite String.eqb_refl.
  destruct (call_listener_valid f ev w) as (w1 & Hrun & _).
  unfold bind, try_catch. rewrite Hrun. reflexivity.
Qed.



(** With no click or keydown listener on the toggle before, the two that
    [init] attaches are the only ones a click or a key press reaches. *)
Lemma attached_listeners (sl0 : list (string * Listener)) :
  (forall f, ("click", f) ∉ sl0) ->
  (forall f, ("keydown", f) ∉ sl0) ->
  add_listener "keydown" L_handleKeyDown
    (add_listener "click" L_handleThemeToggle sl0) =
  (sl0 ++ [("click", L_handleThemeToggle)]) ++ [("keydown", L_handleKeyDown)].
Proof.
  intros Hclick Hkey.
  rewrite (add_listener_fresh "click") by apply Hclick.
  apply add_listener_fresh.
  rewrite elem_of_app, list_elem_of_singleton.
  intros [H | H]; [exact (Hkey _ H) | discriminate H].
Qed.

Lemma dispatch_attached_click (sl0 : list (string * Listener)) (w : World) :
  (forall f, ("click", f) ∉ sl0) ->
  (forall f, ("keydown", f) ∉ sl0) ->
  dispatch (add_listener "keydown" L_handleKeyDown
              (add_listener "click" L_handleThemeToggle sl0)) Ev_click w =
  handleThemeToggle w.
Proof.
  intros Hclick Hkey. rewrite attached_listeners by assumption.
  rewrite !dispatch_app, (dispatch_skip Ev_click sl0) by apply Hclick.
  cbn [world_of]. rewrite (dispatch_one Ev_click L_handleThemeToggle).
  cbn [call_listener]. rewrite handleThemeToggle_run. cbn [world_of].
  apply (dispatch_skip Ev_click [("keydown", L_handleKeyDown)]).
  intros f. rewrite list_elem_of_singleton. discriminate.
Qed.

Lemma dispatch_attached_keydown (sl0 : list (string * Listener)) (k : string)
    (w : World) :
  (forall f, ("click", f) ∉ sl0) ->
  (forall f, ("keydown", f) ∉ sl0) ->
  dispatch (add_listener "keydown" L_handleKeyDown
              (add_listener "click" L_handleThemeToggle sl0)) (Ev_keydown k) w =
  handleKeyDown k w.
Proof.
  intros Hclick Hkey. rewrite attached_listeners by assumption.
  rewrite !dispatch_app, (dispatch_skip (Ev_keydown k) sl0) by apply Hkey.
  cbn [world_of].
  rewrite (dispatch_skip (Ev_keydown k) [("click", L_handleThemeToggle)])
    by (intros f; rewrite list_elem_of_singleton; discriminate).
  cbn [world_of]. rewrite (dispatch_one (Ev_keydown k) L_handleKeyDown).
  cbn [call_listener]. rewrite handleKeyDown_run. reflexivity.
Qed.

(** The world a toggle ends in when it is started by an event on the toggle:
    the default is prevented, the mode has advanced and is shown. *)
Lemma activated (m : Spec.Mode) (w : World) :
  currentTheme (vars w) = Spec.literal m ->
  let w' := applied (saved (advanced (with_page (put_defaultPrevented true) w))) in
  currentTheme (vars w') = Spec.literal (Spec.next m (systemPrefersDark (vars w))) /\
  shows (Spec.next m (systemPrefersDark (vars w))) w' /\
  defaultPrevented (page w') = true.
Proof.
  intros Hm w'. set (w1 := with_page (put_defaultPrevented true) w).
  assert (Hnext : currentTheme (vars (advanced w1)) =
                  Spec.literal (Spec.next m (systemPrefersDark (vars w))))
    by (apply (currentTheme_advanced m w1), Hm).
  split; [unfold w'; rewrite currentTheme_toggled; exact Hnext | ].
  split; [apply applied_shows; rewrite vars_saved; exact Hnext | ].
  destruct (page_frame_applied (saved (advanced w1))) as (_ & _ & _ & _ & _ & Hflag).
  destruct (advanced_frame w1) as (Hpage & _).
  unfold w'. fold w1. rewrite Hflag, page_saved, Hpage. reflexivity.
Qed.

(** X4. After a successful [init] on a toggle that had no click or keydown
    listener, one click advances the mode by one step of the transition
    function, shows it, and prevents the default action; so does a press of
    Enter or of the space bar.  A press of any other key changes nothing and
    leaves the default action alone. *)
Theorem activation_after_init (w : World) :
  readyState (page w) <> loading ->
  has_switcher (page w) = true ->
  has_icon (page w) = true ->
  (forall f, ("click", f) ∉ switcher_listeners (page w)) ->
  (forall f, ("keydown", f) ∉ switcher_listeners (page w)) ->
  exists w',
    init w = Ok tt w' /\
    forall m, currentTheme (vars w') = Spec.literal m ->
      let m' := Spec.next m (systemPrefersDark (vars w')) in
      (exists w'', perform A_click w' = Ok tt w'' /\
                   currentTheme (vars w'') = Spec.literal m' /\
                   shows m' w'' /\ defaultPrevented (page w'') = true) /\
      (forall key, key = "Enter" \/ key = " " ->
         exists w'', perform (A_keydown key) w' = Ok tt w'' /\
                     currentTheme (vars w'') = Spec.literal m' /\
                     shows m' w'' /\ defaultPrevented (page w'') = true) /\
      (forall key, key <> "Enter" -> key <> " " ->
         perform (A_keydown key) w' =
         Ok tt (with_page (put_defaultPrevented false) w')).
Proof.
  intros Hready Hsw Hic Hclick Hkey. exists (initialised w).
  destruct (initialised_ready w Hready Hsw Hic)
    as (_ & _ & _ & _ & _ & Hls & _).
  split; [apply init_run | ].
  intros m Hm m'.
  set (w' := initialised w) in *.
  set (wf := with_page (put_defaultPrevented false) w').
  assert (Hlist : switcher_listeners (page wf) =
            add_listener "keydown" L_handleKeyDown
              (add_listener "click" L_handleThemeToggle (switcher_listeners (page w))))
    by exact Hls.
  destruct (activated m wf Hm) as (Hcur & Hshows & Hprevented).
  split; [ | split].
  - eexists. split; [ | split; [exact Hcur | split; [exact Hshows | exact Hprevented]]].
    cbn [perform]. step. step. fold wf. rewrite Hlist.
    rewrite dispatch_attached_click by assumption.
    apply handleThemeToggle_run.
  - intros key Hactivate.
    eexists. split; [ | split; [exact Hcur | split; [exact Hshows | exact Hprevented]]].
    cbn [perform]. step. step. fold wf. rewrite Hlist.
    rewrite dispatch_attached_keydown by assumption.
    rewrite handleKeyDown_run.
    destruct Hactivate as [-> | ->]; reflexivity.
  - intros key Henter Hspace.
    cbn [perform]. step. step. fold wf. rewrite Hlist.
    rewrite dispatch_attached_keydown by assumption.
    rewrite handleKeyDown_run.
    apply String.eqb_neq in Henter, Hspace. rewrite Henter, Hspace. reflexivity.
Qed.

Lemma activation_after_init_witness :
  exists w' w'',
    init (fresh_page (Some "light") true) = Ok tt w' /\
    perform A_click w' = Ok tt w'' /\
    currentTheme (vars w'') = "dark" /\
    perform (A_keydown "Tab") w' = Ok tt (with_page (put_defaultPrevented false) w').
Proof.
  assert (Hready : readyState (page (fresh_page (Some "light") true)) <> loading)
    by discriminate.
  assert (Hclick : forall f, ("click", f) ∉
            switcher_listeners (page (fresh_page (Some "light") true)))
    by (intros f; apply not_elem_of_nil).
  assert (Hkey : forall f, ("keydown", f) ∉
            switcher_listeners (page (fresh_page (Some "light") true)))
    by (intros f; apply not_elem_of_nil).
  destruct (activation_after_init (fresh_page (Some "light") true)
              Hready eq_refl eq_refl Hclick Hkey) as (w' & Hinit & Hacts).
  assert (Hlight : currentTheme (vars w') = Spec.literal Spec.LIGHT).
  { rewrite init_run in Hinit. injection Hinit as <-. reflexivity. }
  destruct (Hacts Spec.LIGHT Hlight) as ((w'' & Hclicked & Hcur & _) & _ & Hother).
  exists w', w''. split; [exact Hinit | ]. split; [exact Hclicked | ].
  split; [exact Hcur | ]. apply Hother; discriminate.
Defined.

(** ** Properties kept by everything the script runs *)

Section Preserved.
Variable I : World -> Prop.

Hypothesis I_initialised : forall w, I w -> I (initialised w).
Hypothesis I_system_changed : forall b w, I w -> I (system_changed b w).
Hypothesis I_toggled : forall w, I w -> I (applied (saved (advanced w))).
Hypothesis I_page_flags :
  forall w, I w ->
    I (with_page (put_readyState interactive) w) /\
    (forall b, I (with_page (put_defaultPrevented b) w)).
Hypothesis I_media :
  forall w mq b,
    matchMedia w = Some mq -> I w ->
    I (with_matchMedia (fun _ => Some (mkMQ b (mq_listeners mq))) w).

Lemma call_listener_preserves (f : Listener) (ev : Event) (w : World) :
  I w -> I (world_of (call_listener f ev w)).
Proof.
  intros Hw. destruct f; cbn [call_listener].
  - rewrite init_run. apply I_initialised, Hw.
  - destruct ev; try exact Hw.
    rewrite handleSystemThemeChange_run. apply I_system_changed, Hw.
  - rewrite handleThemeToggle_run. apply I_toggled, I_page_flags, Hw.
  - destruct ev; try exact Hw.
    rewrite handleKeyDown_run.
    destruct ((e_key =? "Enter") || (e_key =? " ")); [ | exact Hw].
    apply I_toggled, I_page_flags, Hw.
Qed.

Lemma dispatch_preserves (ev : Event) (ls : list (string * Listener)) :
  forall w, I w -> I (world_of (dispatch ls ev w)).
Proof.
  induction ls as [ | entry rest IH] using rev_ind; intros w Hw; [exact Hw | ].
  rewrite dispatch_app. destruct entry as [ty f].
  destruct (String.eqb_spec ty (event_type ev)) as [-> | Hne].
  - rewrite dispatch_one. apply call_listener_preserves, IH, Hw.
  - rewrite dispatch_skip; [apply IH, Hw | ].
    intros g. rewrite list_elem_of_singleton. congruence.
Qed.

(** Every action other than an outside change of the store. *)
Lemma perform_preserves (a : Action) (w : World) :
  (forall s, a <> A_storage s) -> I w -> I (world_of (perform a w)).
Proof.
  intros Ha Hw. destruct a; cbn [perform].
  - step. destruct (readyState (page w)); try exact Hw.
    step. step. apply dispatch_preserves, I_page_flags, Hw.
  - step. destruct (matchMedia w) as [mq | ] eqn:Hmq; [ | exact Hw].
    step. apply dispatch_preserves, I_media; assumption.
  - step. step. apply dispatch_preserves, I_page_flags, Hw.
  - step. step. apply dispatch_preserves, I_page_flags, Hw.
  - rewrite toggleTheme_run. apply I_toggled, Hw.
  - exact Hw.
  - exfalso. exact (Ha s eq_refl).
Qed.

Hypothesis I_script : forall env, I (initialised (with_vars (fun _ => initial_vars) env)).
Hypothesis I_storage : forall w s, I w -> I (with_localStorage (fun _ => s) w).

Lemma reachable_preserves (w : World) : reachable w -> I w.
Proof.
  induction 1 as [env | w a Hreach IH].
  - rewrite script_run. apply I_script.
  - destruct a; try (apply perform_preserves; [discriminate | exact IH]).
    apply I_storage, IH.
Qed.
End Preserved.

(** ** The store *)

Lemma localStorage_initialised (w : World) :
  localStorage (initialised w) = localStorage w.
Proof.
  unfold initialised. destruct (readyState (page w)); [reflexivity | | ].
  all: cbn zeta;
       destruct (negb (truthy (themeSwitcher (vars (handles_looked_up w)))) ||
                 negb (truthy (themeIcon (vars (handles_looked_up w)))));
       [reflexivity | ].
  all: unfold listening; cbn; rewrite localStorage_applied;
       destruct (loaded_frame (subscribed (handles_looked_up w))) as (_ & -> & _);
       destruct (subscribed_frame (handles_looked_up w)) as (_ & -> & _);
       reflexivity.
Qed.

Lemma localStorage_system_changed (b : bool) (w : World) :
  localStorage (system_changed b w) = localStorage w.
Proof.
  unfold system_changed. cbn zeta.
  destruct (currentTheme (vars w) =? THEMES.AUTO);
    [rewrite localStorage_applied | ]; reflexivity.
Qed.

(** X5. Whatever the script runs (an event it listens to, or a call of an
    exported function), of the store it can change only the value under its
    own key: every other item, and whether reads and writes throw, stay as
    they were. *)
Theorem other_items_untouched (a : Action) (w : World) (k : string) :
  (forall s, a <> A_storage s) ->
  k <> STORAGE_KEY ->
  items (localStorage (world_of (perform a w))) !! k = items (localStorage w) !! k /\
  getItem_throws (localStorage (world_of (perform a w))) =
    getItem_throws (localStorage w) /\
  setItem_throws (localStorage (world_of (perform a w))) =
    setItem_throws (localStorage w).
Proof.
  intros Ha Hk.
  set (I := fun w' : World =>
              items (localStorage w') !! k = items (localStorage w) !! k /\
              getItem_throws (localStorage w') = getItem_throws (localStorage w) /\
              setItem_throws (localStorage w') = setItem_throws (localStorage w)).
  apply (perform_preserves I); try assumption; unfold I.
  - intros w'. rewrite localStorage_initialised. tauto.
  - intros b w'. rewrite localStorage_system_changed. tauto.
  - intros w' (Hitems & Hget & Hset). rewrite localStorage_toggled.
    destruct (setItem_throws (localStorage w')) eqn:Hthrows;
      [rewrite Hthrows; auto | ].
    cbn. rewrite lookup_insert_ne by congruence. rewrite Hthrows. auto.
  - intros w' Hw'. split; [exact Hw' | intros b; exact Hw'].
  - intros w' mq b _ Hw'. exact Hw'.
  - repeat split.
Qed.

Lemma other_items_untouched_witness :
  items (localStorage (world_of (perform A_click
     (with_localStorage (put_items {[ "cart" := "3 items" ]})
        (world_of (script (fresh_page None false))))))) !! "cart" = Some "3 items".
Proof.
  assert (Ha : forall s, A_click <> A_storage s) by discriminate.
  assert (Hk : "cart" <> STORAGE_KEY) by discriminate.
  destruct (other_items_untouched A_click
              (with_localStorage (put_items {[ "cart" := "3 items" ]})
                 (world_of (script (fresh_page None false)))) "cart" Ha Hk)
    as (Hitems & _).
  rewrite Hitems. reflexivity.
Defined.

(** ** The page stays in step with the mode *)

(** A manual mode is shown the same way under either system preference. *)
Lemma shows_manual (m : Spec.Mode) (b : bool) (w : World) :
  m <> Spec.AUTO -> shows m w -> shows m (with_vars (put_systemPrefersDark b) w).
Proof.
  intros Hm Hshows. unfold shows in *. cbn.
  assert (Hres : forall d, Spec.resolve m d = m) by (destruct m; [ | | contradiction]; reflexivity).
  rewrite Hres in *. exact Hshows.
Qed.

Lemma in_step_initialised (w : World) :
  (readyState (page w) = loading -> in_step w) -> in_step (initialised w).
Proof.
  intros Hloading.
  destruct (readyState (page w)) eqn:Hrs.
  - unfold initialised. rewrite Hrs.
    intros m Hm Hsw Hic. apply (shows_ext m w); try reflexivity.
    apply (Hloading eq_refl m Hm Hsw Hic).
  - destruct (has_switcher (page w)) eqn:Hhs; [destruct (has_icon (page w)) eqn:Hhi | ].
    + intros m Hm _ _.
      apply (initialised_ready w); [rewrite Hrs; discriminate | assumption .. ].
    + intros m _ _ Hic. exfalso. revert Hic.
      unfold initialised, handles_looked_up. rewrite Hrs, Hhs, Hhi. discriminate.
    + intros m _ Hsw _. exfalso. revert Hsw.
      unfold initialised, handles_looked_up. rewrite Hrs, Hhs. discriminate.
  - destruct (has_switcher (page w)) eqn:Hhs; [destruct (has_icon (page w)) eqn:Hhi | ].
    + intros m Hm _ _.
      apply (initialised_ready w); [rewrite Hrs; discriminate | assumption .. ].
    + intros m _ _ Hic. exfalso. revert Hic.
      unfold initialised, handles_looked_up. rewrite Hrs, Hhs, Hhi. discriminate.
    + intros m _ Hsw _. exfalso. revert Hsw.
      unfold initialised, handles_looked_up. rewrite Hrs, Hhs. discriminate.
Qed.

Lemma in_step_applied (w : World) : in_step (applied w).
Proof.
  intros m Hm _ _. apply applied_shows. rewrite vars_applied in Hm. exact Hm.
Qed.

Lemma in_step_system_changed (b : bool) (w : World) :
  in_step w -> in_step (system_changed b w).
Proof.
  intros Hw. unfold system_changed. cbn zeta.
  destruct (String.eqb_spec (currentTheme (vars w)) THEMES.AUTO) as [Hauto | Hman];
    [apply in_step_applied | ].
  intros m Hm Hsw Hic. apply shows_manual.
  - intros ->. apply Hman. exact Hm.
  - apply (Hw m Hm Hsw Hic).
Qed.

Lemma reachable_in_step (w : World) : reachable w -> in_step w.
Proof.
  apply (reachable_preserves in_step).
  - intros w' Hw'. apply in_step_initialised. intros _. exact Hw'.
  - apply in_step_system_changed.
  - intros w' _. apply in_step_applied.
  - intros w' Hw'. split; [ | intros b]; intros m Hm Hsw Hic;
      apply (shows_ext m w'); try reflexivity; apply (Hw' m Hm Hsw Hic).
  - intros w' mq b _ Hw' m Hm Hsw Hic.
    apply (shows_ext m w'); try reflexivity; apply (Hw' m Hm Hsw Hic).
  - intros env. apply in_step_initialised. intros _ m _ Hsw. discriminate Hsw.
  - intros w' s Hw' m Hm Hsw Hic.
    apply (shows_ext m w'); try reflexivity; apply (Hw' m Hm Hsw Hic).
Qed.

(** X6. In every reachable state in which the script holds both elements,
    the page shows the current mode: the body carries exactly the theme class
    of the effective theme, the icon exactly the glyph of the mode, and the
    title and aria-label the tooltip of the mode. *)
Theorem reachable_page_in_step (w : World) :
  reachable w ->
  truthy (themeSwitcher (vars w)) = true ->
  truthy (themeIcon (vars w)) = true ->
  exists m, currentTheme (vars w) = Spec.literal m /\ shows m w.
Proof.
  intros Hreach Hsw Hic.
  destruct (proj1 (valid_theme_literal _) (reachable_valid_theme w Hreach)) as [m Hm].
  exists m. split; [exact Hm | ].
  apply (reachable_in_step w Hreach m Hm Hsw Hic).
Qed.

Lemma reachable_page_in_step_witness :
  let w := world_of (perform (A_systemPreference false)
             (world_of (perform (A_keydown "Enter")
                (world_of (script (fresh_page (Some "dark") true)))))) in
  exists m, currentTheme (vars w) = Spec.literal m /\ shows m w.
Proof.
  intros w.
  apply (reachable_page_in_step w).
  - unfold w. apply reach_perform, reach_perform, reach_script.
  - vm_compute. reflexivity.
  - vm_compute. reflexivity.
Defined.

(** ** Reload, load, and what a toggle shows *)

(** X7. With a store that accepts reads and writes, a toggle followed by a
    reload of a page that has the toggle brings the script back in the mode
    the toggle left, and the reloaded page shows it. *)
Theorem toggle_then_reload (m : Spec.Mode) (w env : World) :
  currentTheme (vars w) = Spec.literal m ->
  setItem_throws (localStorage w) = None ->
  getItem_throws (localStorage w) = None ->
  readyState (page env) <> loading ->
  has_switcher (page env) = true ->
  has_icon (page env) = true ->
  exists w1 w2,
    toggleTheme w = Ok tt w1 /\
    script (with_localStorage (fun _ => localStorage w1) env) = Ok tt w2 /\
    currentTheme (vars w2) = currentTheme (vars w1) /\
    currentTheme (vars w2) =
      Spec.literal (Spec.next m (systemPrefersDark (vars w))) /\
    shows (Spec.next m (systemPrefersDark (vars w))) w2.
Proof.
  intros Hm Hset Hget Hready Hsw Hic.
  set (m' := Spec.next m (systemPrefersDark (vars w))).
  set (w1 := applied (saved (advanced w))).
  set (env' := with_vars (fun _ => initial_vars)
                 (with_localStorage (fun _ => localStorage w1) env)).
  assert (Hcur1 : currentTheme (vars w1) = Spec.literal m')
    by (unfold w1; rewrite currentTheme_toggled; apply currentTheme_advanced, Hm).
  assert (Hstore : localStorage env' =
            put_items (<[STORAGE_KEY := Spec.literal m']> (items (localStorage w)))
              (localStorage w)).
  { change (localStorage env') with (localStorage w1). unfold w1.
    rewrite localStorage_toggled, Hset. f_equal. f_equal.
    apply currentTheme_advanced, Hm. }
  destruct (initialised_ready env' Hready Hsw Hic)
    as (_ & _ & _ & Hcur & Hshows & _).
  assert (Hcur2 : currentTheme (vars (initialised env')) = Spec.literal m').
  { rewrite Hcur. unfold loaded. rewrite Hstore. cbn.
    rewrite Hget, lookup_insert_eq, literal_is_theme. reflexivity. }
  exists w1, (initialised env').
  split; [apply toggleTheme_run | ].
  split; [apply script_run | ].
  split; [rewrite Hcur2, Hcur1; reflexivity | ].
  split; [exact Hcur2 | apply Hshows, Hcur2].
Qed.

Lemma toggle_then_reload_witness :
  exists w1 w2,
    toggleTheme (running "auto" true) = Ok tt w1 /\
    script (with_localStorage (fun _ => localStorage w1) (fresh_page None false)) =
      Ok tt w2 /\
    currentTheme (vars w2) = "light".
Proof.
  assert (Hready : readyState (page (fresh_page None false)) <> loading)
    by discriminate.
  destruct (toggle_then_reload Spec.AUTO (running "auto" true) (fresh_page None false)
              eq_refl eq_refl eq_refl Hready eq_refl eq_refl)
    as (w1 & w2 & Htoggle & Hscript & _ & Hcur & _).
  exists w1, w2. auto.
Defined.

(** X8. [loadThemePreference] returns in every world and writes nothing but
    [currentTheme] (and, when the read throws, one warning).  Afterwards
    [currentTheme] is the stored value if the read succeeded and the value is
    one of the three literals; in every other case (no value, the empty
    string, any other string, a read that throws) it is what it was.  A
    valid mode therefore stays valid. *)
Theorem loadThemePreference_validates (w : World) :
  exists w',
    loadThemePreference w = Ok tt w' /\
    page w' = page w /\ localStorage w' = localStorage w /\
    matchMedia w' = matchMedia w /\
    systemPrefersDark (vars w') = systemPrefersDark (vars w) /\
    themeSwitcher (vars w') = themeSwitcher (vars w) /\
    themeIcon (vars w') = themeIcon (vars w) /\
    match getItem_throws (localStorage w), items (localStorage w) !! STORAGE_KEY with
    | None, Some s =>
        console w' = console w /\
        ((exists m, s = Spec.literal m) -> currentTheme (vars w') = s) /\
        ((forall m, s <> Spec.literal m) ->
         currentTheme (vars w') = currentTheme (vars w))
    | None, None =>
        console w' = console w /\ currentTheme (vars w') = currentTheme (vars w)
    | Some e, _ =>
        console w' = console w ++ [["Could not load theme preference:"; e]] /\
        currentTheme (vars w') = currentTheme (vars w)
    end /\
    (valid_theme (currentTheme (vars w)) -> valid_theme (currentTheme (vars w'))).
Proof.
  exists (loaded w). split; [apply loadThemePreference_run | ].
  destruct (loaded_frame w) as (Hp & Hs & Hm & Hspd & Hsw & Hic).
  repeat (split; [assumption | ]).
  split; [ | apply valid_loaded].
  unfold loaded.
  destruct (getItem_throws (localStorage w)); [split; reflexivity | ].
  destruct (items (localStorage w) !! STORAGE_KEY) as [s | ]; [ | split; reflexivity].
  destruct (negb (s =? "") && bool_decide (s ∈ THEMES.values)) eqn:Hok.
  - split; [reflexivity | ]. split; [reflexivity | ].
    intros Hnot. rewrite (not_literal_not_theme s Hnot) in Hok. discriminate Hok.
  - split; [reflexivity | ]. split; [ | reflexivity].
    intros [m ->]. rewrite literal_is_theme in Hok. discriminate Hok.
Qed.

(** X9. A change of the system preference that arrives while the mode is
    DARK leaves the page alone, and is what the page shows once the next
    toggle brings the mode back to AUTO: the body then carries manual-dark
    exactly if the reported preference was dark. *)
Theorem recorded_preference_on_return_to_auto (e_matches : bool) (w : World) :
  currentTheme (vars w) = THEMES.DARK ->
  exists w1 w2,
    handleSystemThemeChange e_matches w = Ok tt w1 /\
    page w1 = page w /\
    toggleTheme w1 = Ok tt w2 /\
    currentTheme (vars w2) = THEMES.AUTO /\
    systemPrefersDark (vars w2) = e_matches /\
    shows Spec.AUTO w2 /\
    (BODY_CLASS_DARK ∈ body_classes (page w2) <-> e_matches = true) /\
    (BODY_CLASS_LIGHT ∈ body_classes (page w2) <-> e_matches = false).
Proof.
  intros Hdark.
  set (w1 := with_vars (put_systemPrefersDark e_matches) w).
  assert (Hchanged : system_changed e_matches w = w1)
    by (unfold system_changed; rewrite Hdark; reflexivity).
  assert (Hcur1 : currentTheme (vars w1) = Spec.literal Spec.DARK) by exact Hdark.
  set (w2 := applied (saved (advanced w1))).
  assert (Hcur2 : currentTheme (vars w2) = THEMES.AUTO)
    by (unfold w2; rewrite currentTheme_toggled;
        apply (currentTheme_advanced Spec.DARK w1 Hcur1)).
  assert (Hspd2 : systemPrefersDark (vars w2) = e_matches)
    by (destruct (toggled_frame w1) as (Hspd & _); exact Hspd).
  assert (Hshows : shows Spec.AUTO w2)
    by (apply applied_shows; rewrite vars_saved;
        apply (currentTheme_advanced Spec.DARK w1 Hcur1)).
  exists w1, w2.
  split; [rewrite handleSystemThemeChange_run, Hchanged; reflexivity | ].
  split; [reflexivity | ].
  split; [apply toggleTheme_run | ].
  split; [exact Hcur2 | ]. split; [exact Hspd2 | ]. split; [exact Hshows | ].
  destruct Hshows as (Hbody & _). rewrite Hspd2 in Hbody.
  split.
  - rewrite (Hbody BODY_CLASS_DARK) by (apply theme_class_cases; auto).
    destruct e_matches; cbn; split; intros H; reflexivity || discriminate H.
  - rewrite (Hbody BODY_CLASS_LIGHT) by (apply theme_class_cases; auto).
    destruct e_matches; cbn; split; intros H; reflexivity || discriminate H.
Qed.

Lemma recorded_preference_on_return_to_auto_witness :
  exists w1 w2,
    handleSystemThemeChange false (running "dark" true) = Ok tt w1 /\
    toggleTheme w1 = Ok tt w2 /\
    currentTheme (vars w2) = "auto" /\
    BODY_CLASS_LIGHT ∈ body_classes (page w2).
Proof.
  destruct (recorded_preference_on_return_to_auto false (running "dark" true) eq_refl)
    as (w1 & w2 & Hchange & _ & Htoggle & Hcur & _ & _ & _ & Hlight).
  exists w1, w2. repeat (split; [assumption | ]). apply Hlight. reflexivity.
Defined.

(** X10. A toggle changes the effective theme, and with it the body's theme
    class, in every case but one: from DARK on a system that prefers dark,
    where the mode becomes AUTO and the page stays dark. *)
Theorem toggle_changes_effective_theme (m : Spec.Mode) (w : World) :
  currentTheme (vars w) = Spec.literal m ->
  exists w',
    toggleTheme w = Ok tt w' /\
    (effectiveTheme w' = effectiveTheme w <->
     m = Spec.DARK /\ systemPrefersDark (vars w) = true) /\
    (BODY_CLASS_DARK ∈ body_classes (page w') <-> effectiveTheme w' = THEMES.DARK).
Proof.
  intros Hm. set (w' := applied (saved (advanced w))).
  assert (Hcur : currentTheme (vars w') =
                 Spec.literal (Spec.next m (systemPrefersDark (vars w))))
    by (unfold w'; rewrite currentTheme_toggled; apply currentTheme_advanced, Hm).
  destruct (toggled_frame w) as (Hspd & _). fold w' in Hspd.
  exists w'. split; [apply toggleTheme_run | ].
  rewrite (effectiveTheme_literal _ w' Hcur), (effectiveTheme_literal m w Hm), Hspd.
  split.
  - destruct m, (systemPrefersDark (vars w)); cbn; split;
      (discriminate || (intros [? ?]; discriminate) || auto).
  - destruct (applied_shows _ (saved (advanced w))
                (eq_trans (f_equal currentTheme (vars_saved (advanced w)))
                   (currentTheme_advanced m w Hm))) as (Hbody & _).
    fold w' in Hbody. rewrite Hspd in Hbody.
    rewrite (Hbody BODY_CLASS_DARK) by (apply theme_class_cases; auto).
    destruct m, (systemPrefersDark (vars w)); cbn; split; intros H;
      reflexivity || discriminate H.
Qed.

Lemma toggle_changes_effective_theme_witness :
  exists w',
    toggleTheme (running "dark" true) = Ok tt w' /\
    effectiveTheme w' = effectiveTheme (running "dark" true).
Proof.
  destruct (toggle_changes_effective_theme Spec.DARK (running "dark" true) eq_refl)
    as (w' & Hrun & Hsame & _).
  exists w'. split; [exact Hrun | ]. apply Hsame. split; reflexivity.
Defined.

(** ** The system preference as the script sees it *)

(** The three ways [init] can end. *)
Lemma initialised_cases (w : World) :
  (readyState (page w) = loading /\
   vars (initialised w) = vars w /\ matchMedia (initialised w) = matchMedia w) \/
  (truthy (themeSwitcher (vars (initialised w))) &&
   truthy (themeIcon (vars (initialised w))) = false) \/
  (readyState (page w) <> loading /\
   has_switcher (page w) = true /\ has_icon (page w) = true).
Proof.
  destruct (readyState (page w)) eqn:Hrs.
  - left. unfold initialised. rewrite Hrs. repeat split.
  - destruct (has_switcher (page w)) eqn:Hhs;
      [destruct (has_icon (page w)) eqn:Hhi | ].
    + right. right. repeat split. discriminate.
    + right. left. unfold initialised, handles_looked_up.
      rewrite Hrs, Hhs, Hhi. reflexivity.
    + right. left. unfold initialised, handles_looked_up.
      rewrite Hrs, Hhs. reflexivity.
  - destruct (has_switcher (page w)) eqn:Hhs;
      [destruct (has_icon (page w)) eqn:Hhi | ].
    + right. right. repeat split. discriminate.
    + right. left. unfold initialised, handles_looked_up.
      rewrite Hrs, Hhs, Hhi. reflexivity.
    + right. left. unfold initialised, handles_looked_up.
      rewrite Hrs, Hhs. reflexivity.
Qed.

Lemma not_both_held (w : World) :
  truthy (themeSwitcher (vars w)) && truthy (themeIcon (vars w)) = false ->
  truthy (themeSwitcher (vars w)) = true ->
  truthy (themeIcon (vars w)) = true -> False.
Proof. intros H Hsw Hic. rewrite Hsw, Hic in H. discriminate H. Qed.

Lemma system_changed_frame (b : bool) (w : World) :
  themeSwitcher (vars (system_changed b w)) = themeSwitcher (vars w) /\
  themeIcon (vars (system_changed b w)) = themeIcon (vars w) /\
  matchMedia (system_changed b w) = matchMedia w /\
  systemPrefersDark (vars (system_changed b w)) = b.
Proof.
  unfold system_changed. cbn zeta.
  destruct (currentTheme (vars w) =? THEMES.AUTO);
    rewrite ?vars_applied, ?matchMedia_applied; repeat split.
Qed.

Lemma subscribed_initialised (w : World) :
  (readyState (page w) = loading -> subscribed_to_system w) ->
  subscribed_to_system (initialised w).
Proof.
  intros Hloading Hsw Hic mq' Hmq'.
  destruct (initialised_cases w) as [(Hrs & Hv & Hm) | [Hnot | (Hrs & Hhs & Hhi)]].
  - rewrite Hv in Hsw, Hic. rewrite Hm in Hmq'.
    apply (Hloading Hrs Hsw Hic mq' Hmq').
  - destruct (not_both_held _ Hnot Hsw Hic).
  - destruct (initialised_ready w Hrs Hhs Hhi) as (_ & _ & _ & _ & _ & _ & Hm & _).
    rewrite Hm in Hmq'. destruct (matchMedia w) as [mq | ]; [ | discriminate Hmq'].
    injection Hmq' as <-. cbn. rewrite elem_of_add_listener. auto.
Qed.

Lemma reachable_subscribed (w : World) : reachable w -> subscribed_to_system w.
Proof.
  apply (reachable_preserves subscribed_to_system).
  - intros w' Hw'. apply subscribed_initialised. intros _. exact Hw'.
  - intros b w' Hw' Hsw Hic mq Hmq.
    destruct (system_changed_frame b w') as (Hsw' & Hic' & Hm' & _).
    rewrite Hsw' in Hsw. rewrite Hic' in Hic. rewrite Hm' in Hmq.
    apply (Hw' Hsw Hic mq Hmq).
  - intros w' Hw' Hsw Hic mq Hmq.
    destruct (toggled_frame w') as (_ & Hsw' & Hic' & Hm').
    rewrite Hsw' in Hsw. rewrite Hic' in Hic. rewrite Hm' in Hmq.
    apply (Hw' Hsw Hic mq Hmq).
  - intros w' Hw'. split; [ | intros b]; exact Hw'.
  - intros w' mq b Hmq Hw' Hsw Hic mq' Hmq'.
    injection Hmq' as <-. apply (Hw' Hsw Hic mq Hmq).
  - intros env. apply subscribed_initialised. intros _ Hsw. discriminate Hsw.
  - intros w' s Hw'. exact Hw'.
Qed.

Lemma mirrors_initialised (w : World) :
  (readyState (page w) = loading -> mirrors_system w) ->
  mirrors_system (initialised w).
Proof.
  intros Hloading Hsw Hic mq' Hmq'.
  destruct (initialised_cases w) as [(Hrs & Hv & Hm) | [Hnot | (Hrs & Hhs & Hhi)]].
  - rewrite Hv in *. rewrite Hm in Hmq'.
    apply (Hloading Hrs Hsw Hic mq' Hmq').
  - destruct (not_both_held _ Hnot Hsw Hic).
  - destruct (initialised_ready w Hrs Hhs Hhi) as (_ & _ & Hspd & _ & _ & _ & Hm & _).
    rewrite Hm in Hmq'. rewrite Hspd.
    destruct (matchMedia w) as [mq | ]; [ | discriminate Hmq'].
    injection Hmq' as <-. reflexivity.
Qed.

Lemma reported_initialised (w : World) : reported (initialised w) = reported w.
Proof.
  unfold reported.
  destruct (initialised_cases w) as [(_ & _ & ->) | [Hnot | (Hrs & Hhs & Hhi)]];
    [reflexivity | | ].
  - unfold initialised in *. destruct (readyState (page w)); [reflexivity | | ].
    all: cbn zeta in *;
         destruct (negb (truthy (themeSwitcher (vars (handles_looked_up w)))) ||
                   negb (truthy (themeIcon (vars (handles_looked_up w))))) eqn:Hfalsy;
         [reflexivity | ].
    all: exfalso; unfold listening in Hnot; cbn in Hnot;
         rewrite vars_applied in Hnot;
         destruct (loaded_frame (subscribed (handles_looked_up w)))
           as (_ & _ & _ & _ & Hsw & Hic);
         destruct (subscribed_frame (handles_looked_up w))
           as (_ & _ & _ & _ & Hsw' & Hic' & _);
         rewrite Hsw, Hic, Hsw', Hic' in Hnot;
         destruct (truthy (themeSwitcher (vars (handles_looked_up w)))),
                  (truthy (themeIcon (vars (handles_looked_up w))));
         discriminate.
  - destruct (initialised_ready w Hrs Hhs Hhi) as (_ & _ & _ & _ & _ & _ & -> & _).
    destruct (matchMedia w); reflexivity.
Qed.

Lemma delivering_reported (ev : Event) (w1 w2 : World) :
  reported w2 = reported w1 -> delivering ev w1 -> delivering ev w2.
Proof.
  unfold reported. intros Hrep. destruct ev; cbn; try tauto.
  intros Hw1 mq2 Hmq2. rewrite Hmq2 in Hrep.
  destruct (matchMedia w1) as [mq1 | ]; [ | discriminate Hrep].
  injection Hrep as ->. apply (Hw1 mq1 eq_refl).
Qed.

(** One listener during a dispatch: it keeps the mirror if it holds, and the
    handler of the change event establishes it. *)
Lemma call_listener_mirror (f : Listener) (ev : Event) (w : World) :
  delivering ev w ->
  let w' := world_of (call_listener f ev w) in
  delivering ev w' /\
  (mirrors_system w -> mirrors_system w') /\
  (f = L_handleSystemThemeChange -> event_type ev = "change" -> mirrors_system w').
Proof.
  intros Hdel w'.
  assert (Htoggled : forall w0, delivering ev w0 -> mirrors_system w0 ->
            delivering ev (applied (saved (advanced w0))) /\
            mirrors_system (applied (saved (advanced w0)))).
  { intros w0 Hd Hmir. destruct (toggled_frame w0) as (Hspd & Hsw & Hic & Hm).
    split.
    - apply (delivering_reported ev w0); [unfold reported; rewrite Hm | ]; auto.
    - intros Hsw' Hic' mq Hmq. rewrite Hsw in Hsw'. rewrite Hic in Hic'.
      rewrite Hm in Hmq. rewrite Hspd. apply (Hmir Hsw' Hic' mq Hmq). }
  assert (Hdel_toggled : forall w0, delivering ev w0 ->
            delivering ev (applied (saved (advanced w0)))).
  { intros w0 Hd. destruct (toggled_frame w0) as (_ & _ & _ & Hm).
    apply (delivering_reported ev w0); [unfold reported; rewrite Hm | ]; auto. }
  unfold w'. destruct f; cbn [call_listener].
  - rewrite init_run. cbn [world_of].
    split; [apply (delivering_reported ev w), Hdel; apply reported_initialised | ].
    split; [ | discriminate].
    intros Hmir. apply mirrors_initialised. intros _. exact Hmir.
  - destruct ev as [ | b | | k]; cbn [world_of];
      try (split; [exact Hdel | split; [tauto | discriminate]]).
    rewrite handleSystemThemeChange_run. cbn [world_of].
    destruct (system_changed_frame b w) as (Hsw & Hic & Hm & Hspd).
    assert (Hmir : mirrors_system (system_changed b w)).
    { intros _ _ mq Hmq. rewrite Hm in Hmq. rewrite Hspd.
      symmetry. apply (Hdel mq Hmq). }
    split; [ | split; auto].
    apply (delivering_reported (Ev_change b) w); [unfold reported; rewrite Hm | ]; auto.
  - rewrite handleThemeToggle_run. cbn [world_of].
    split; [apply Hdel_toggled; exact Hdel | ].
    split; [ | discriminate].
    intros Hmir. apply Htoggled; assumption.
  - destruct ev as [ | b | | k]; cbn [world_of];
      try (split; [exact Hdel | split; [tauto | discriminate]]).
    rewrite handleKeyDown_run. cbn [world_of].
    destruct ((k =? "Enter") || (k =? " "));
      [ | split; [exact Hdel | split; [tauto | discriminate]]].
    split; [apply Hdel_toggled; exact Hdel | ].
    split; [ | discriminate].
    intros Hmir. apply Htoggled; assumption.
Qed.

Lemma dispatch_cons (ev : Event) (ty : string) (f : Listener)
    (rest : list (string * Listener)) (w : World) :
  dispatch ((ty, f) :: rest) ev w =
  dispatch rest ev (if ty =? event_type ev
                    then world_of (call_listener f ev w) else w).
Proof.
  change ((ty, f) :: rest) with ([(ty, f)] ++ rest). rewrite dispatch_app.
  destruct (String.eqb_spec ty (event_type ev)) as [-> | Hne].
  - rewrite dispatch_one. reflexivity.
  - rewrite (dispatch_skip ev [(ty, f)] w); [reflexivity | ].
    intros g. rewrite list_elem_of_singleton. congruence.
Qed.

Lemma dispatch_mirror (ev : Event) (ls : list (string * Listener)) :
  forall w,
    delivering ev w ->
    mirrors_system w \/
      (event_type ev = "change" /\ ("change", L_handleSystemThemeChange) ∈ ls) ->
    mirrors_system (world_of (dispatch ls ev w)).
Proof.
  induction ls as [ | [ty f] rest IH]; intros w Hdel Hcase.
  - destruct Hcase as [Hmir | [_ Hin]]; [exact Hmir | ].
    apply not_elem_of_nil in Hin. contradiction.
  - rewrite dispatch_cons.
    destruct (call_listener_mirror f ev w Hdel) as (Hdel' & Hkeep & Hset).
    destruct (String.eqb_spec ty (event_type ev)) as [-> | Hne].
    + apply IH; [exact Hdel' | ].
      destruct Hcase as [Hmir | [Hchange Hin]]; [left; apply Hkeep, Hmir | ].
      apply elem_of_cons in Hin as [Heq | Hin]; [ | right; auto].
      left. injection Heq as _ <-. apply Hset; [reflexivity | exact Hchange].
    + apply IH; [exact Hdel | ].
      destruct Hcase as [Hmir | [Hchange Hin]]; [left; exact Hmir | ].
      apply elem_of_cons in Hin as [Heq | Hin]; [ | right; auto].
      injection Heq as Hty _. congruence.
Qed.

Lemma reachable_mirrors (w : World) : reachable w -> mirrors_system w.
Proof.
  induction 1 as [env | w a Hreach IH].
  - rewrite script_run. apply mirrors_initialised. intros _ Hsw. discriminate Hsw.
  - pose proof (reachable_subscribed w Hreach) as Hsub.
    destruct a; cbn [perform].
    + erewrite bind_Ok by reflexivity.
      destruct (readyState (page w)); try exact IH.
      step. step. apply dispatch_mirror; [exact I | left; exact IH].
    + erewrite bind_Ok by reflexivity.
      destruct (matchMedia w) as [mq | ] eqn:Hmq; [ | exact IH].
      step. apply dispatch_mirror.
      * intros mq' Hmq'. injection Hmq' as <-. reflexivity.
      * destruct (truthy (themeSwitcher (vars w))) eqn:Hsw;
          [destruct (truthy (themeIcon (vars w))) eqn:Hic | ].
        -- right. split; [reflexivity | apply (Hsub Hsw Hic mq Hmq)].
        -- left. intros _ Hic'. cbn in Hic'. congruence.
        -- left. intros Hsw'. cbn in Hsw'. congruence.
    + step. step. apply dispatch_mirror; [exact I | left; exact IH].
    + step. step. apply dispatch_mirror; [exact I | left; exact IH].
    + rewrite toggleTheme_run. cbn [world_of].
      destruct (toggled_frame w) as (Hspd & Hsw & Hic & Hm).
      intros Hsw' Hic' mq Hmq. rewrite Hsw in Hsw'. rewrite Hic in Hic'.
      rewrite Hm in Hmq. rewrite Hspd. apply (IH Hsw' Hic' mq Hmq).
    + exact IH.
    + exact IH.
Qed.

(** X11. In every reachable state in which the script holds both elements
    and the host has a media query: the handler of its change event is
    subscribed, [systemPrefersDark] equals what the media query reports, and
    in AUTO the body carries manual-dark exactly if the media query reports
    dark. *)
Theorem reachable_mirrors_system_preference (w : World) (mq : MediaQueryList) :
  reachable w ->
  truthy (themeSwitcher (vars w)) = true ->
  truthy (themeIcon (vars w)) = true ->
  matchMedia w = Some mq ->
  ("change", L_handleSystemThemeChange) ∈ mq_listeners mq /\
  systemPrefersDark (vars w) = matches mq /\
  (currentTheme (vars w) = THEMES.AUTO ->
   (BODY_CLASS_DARK ∈ body_classes (page w) <-> matches mq = true)).
Proof.
  intros Hreach Hsw Hic Hmq.
  pose proof (reachable_mirrors w Hreach Hsw Hic mq Hmq) as Hspd.
  split; [apply (reachable_subscribed w Hreach Hsw Hic mq Hmq) | ].
  split; [exact Hspd | ].
  intros Hauto.
  destruct (reachable_in_step w Hreach Spec.AUTO Hauto Hsw Hic) as (Hbody & _).
  rewrite (Hbody BODY_CLASS_DARK) by (apply theme_class_cases; auto).
  rewrite Hspd. destruct (matches mq); cbn; split; intros H;
    reflexivity || discriminate H.
Qed.

Lemma reachable_mirrors_system_preference_witness :
  let w := world_of (perform (A_systemPreference false)
             (world_of (script (fresh_page None true)))) in
  systemPrefersDark (vars w) = false /\
  (BODY_CLASS_DARK ∈ body_classes (page w) <-> false = true).
Proof.
  intros w.
  assert (Hreach : reachable w) by (apply reach_perform, reach_script).
  destruct (reachable_mirrors_system_preference w
              (mkMQ false [("change", L_handleSystemThemeChange)])
              Hreach eq_refl eq_refl eq_refl) as (_ & Hspd & Hbody).
  split; [exact Hspd | ]. apply Hbody. reflexivity.
Defined.
